(** * redis-mnist-vector-search: a shallow embedding of [main.go]

    The program ingests MNIST rows into Redis as JSON documents
    ([StoreData]), then classifies test rows by a KNN-1 vector search
    ([SearchData], [searchVectorInRedis]) and prints accuracy and latency
    figures.  Redis itself is behind the [Backend] interface below; the Go
    standard-library functions the program calls ([strconv.Atoi],
    [strings.Split], [fmt.Sprintf], [csv.Reader.ReadAll], float32
    arithmetic) are modelled in the first modules. *)

From Stdlib Require Import ZArith QArith Qabs String Ascii List Lia Bool.
From Stdlib Require Import Floats.SpecFloat.
From stdpp Require Import gmap strings.
Import ListNotations.

Local Open Scope string_scope.
Local Open Scope Z_scope.

(* ===================================================================== *)
(** ** Go's [int] and [int64] (64-bit, two's complement) *)
(* ===================================================================== *)

Module GoInt.

Definition maxInt64 : Z := 9223372036854775807.
Definition minInt64 : Z := -9223372036854775808.
Definition maxUint64 : Z := 18446744073709551615.

(** Wrap-around of a mathematical integer into the int64 range. *)
Definition wrap (z : Z) : Z := (z + 2 ^ 63) mod 2 ^ 64 - 2 ^ 63.

Definition add (x y : Z) : Z := wrap (x + y).
Definition mul (x y : Z) : Z := wrap (x * y).

(** [x / y]: truncated division; [None] is the run-time panic
    "integer divide by zero". *)
Definition quo (x y : Z) : option Z :=
  if y =? 0 then None else Some (wrap (Z.quot x y)).

Definition in_range (z : Z) : Prop := minInt64 <= z <= maxInt64.

End GoInt.

(* ===================================================================== *)
(** ** Errors and outcomes *)
(* ===================================================================== *)

(** [strconv.ErrSyntax] and [strconv.ErrRange]. *)
Inductive num_err := ErrSyntax | ErrRange.

(** The [error] values that can flow through the program. *)
Inductive error :=
| NumError (func num : string) (why : num_err)   (* *strconv.NumError *)
| PathError (op path : string)                   (* os.Open *)
| ErrFieldCount (line : Z)                       (* csv.ErrFieldCount *)
| Errorf (msg : string)                          (* fmt.Errorf *)
| BackendError (msg : string).                   (* returned by the client *)

(** Run-time panics. *)
Inductive panic :=
| IndexOutOfRange (index len : Z)
| InterfaceConversion
| DivideByZero.

(** What a call of a function with an [error] result can do: return
    normally, return a non-nil [error], or panic. *)
Inductive outcome (A : Type) :=
| Returns (a : A)
| Fails (e : error)
| Panics (p : panic).
Arguments Returns {A} a.
Arguments Fails {A} e.
Arguments Panics {A} p.

(* ===================================================================== *)
(** ** [strconv]: decimal integers *)
(* ===================================================================== *)

Module Strconv.

Definition digit_char (d : Z) : ascii := ascii_of_N (Z.to_N (48 + d)).

Definition is_digit (c : ascii) : bool :=
  let n := Z.of_N (N_of_ascii c) in (48 <=? n) && (n <=? 57).

Definition digit_val (c : ascii) : Z := Z.of_N (N_of_ascii c) - 48.

(** The decimal digits of [n >= 0], most significant first, in front of
    [acc]; [fuel] bounds the number of digits. *)
Fixpoint digits (fuel : nat) (n : Z) (acc : string) : string :=
  match fuel with
  | O => acc
  | S fuel' =>
      let acc' := String (digit_char (n mod 10)) acc in
      if n <? 10 then acc' else digits fuel' (n / 10) acc'
  end.

(** Unsigned decimal rendering. *)
Definition utoa (n : Z) : string :=
  digits (S (Z.to_nat (Z.log2 n))) n "".

(** [strconv.Itoa], and [%d] of [fmt]. *)
Definition Itoa (z : Z) : string :=
  if z <? 0 then String "-" (utoa (- z)) else utoa z.

(** [n] rendered with exactly [width] digits (leading zeros). *)
Fixpoint fixed_digits (width : nat) (n : Z) : string :=
  match width with
  | O => ""
  | S w => fixed_digits w (n / 10) ++ String (digit_char (n mod 10)) ""
  end.

(** The digit loop of [strconv.ParseUint(s, 10, 64)]. *)
Fixpoint parseUint_loop (s : string) (n : Z) : num_err + Z :=
  match s with
  | EmptyString => inr n
  | String c rest =>
      if is_digit c then
        if n >=? GoInt.maxUint64 / 10 + 1 then inl ErrRange
        else
          let n1 := n * 10 + digit_val c in
          if n1 >? GoInt.maxUint64 then inl ErrRange
          else parseUint_loop rest n1
      else inl ErrSyntax
  end.

Definition ParseUint (s : string) : num_err + Z :=
  match s with
  | EmptyString => inl ErrSyntax
  | _ => parseUint_loop s 0
  end.

(** [strconv.ParseInt(s, 10, 0)]: optional sign, then [ParseUint]; a
    magnitude outside int64 is a range error. *)
Definition ParseInt (s : string) : num_err + Z :=
  match s with
  | EmptyString => inl ErrSyntax
  | String c rest =>
      let neg := Ascii.eqb c "-" in
      let body := if Ascii.eqb c "+" || neg then rest else s in
      match ParseUint body with
      | inl ErrSyntax => inl ErrSyntax
      | inl ErrRange => inl ErrRange
      | inr un =>
          if negb neg && (un >=? 2 ^ 63) then inl ErrRange
          else if neg && (un >? 2 ^ 63) then inl ErrRange
          else inr (if neg then - un else un)
      end
  end.

(** [strconv.Atoi]: its short-input fast path computes the same result
    as [ParseInt]; failures are [*NumError] values with [Func = "Atoi"]. *)
Definition Atoi (s : string) : error + Z :=
  match ParseInt s with
  | inl why => inl (NumError "Atoi" s why)
  | inr n => inr n
  end.

End Strconv.

(* ===================================================================== *)
(** ** [strings] *)
(* ===================================================================== *)

Module Strings.

(** [strings.Split(s, sep)] for a one-byte separator: the pieces of [s]
    around each occurrence of [sep]; never the empty list. *)
Fixpoint Split (s : string) (sep : ascii) : list string :=
  match s with
  | EmptyString => [EmptyString]
  | String c rest =>
      if Ascii.eqb c sep then EmptyString :: Split rest sep
      else match Split rest sep with
           | [] => [String c EmptyString]
           | piece :: pieces => String c piece :: pieces
           end
  end.

(** [strings.Join(elems, sep)]. *)
Definition Join (elems : list string) (sep : string) : string :=
  String.concat sep elems.

End Strings.

(* ===================================================================== *)
(** ** [float32]: IEEE-754 binary32, round to nearest even *)
(* ===================================================================== *)

Module F32.

Definition prec : Z := 24.
Definition emax : Z := 128.

(** A [float32] value. *)
Definition t : Type := spec_float.

(** The conversion [float32(n)] of an integer. *)
Definition of_int (n : Z) : t := binary_normalize prec emax n 0 false.

(** The quotient [x / y] of two [float32] values. *)
Definition div (x y : t) : t := SFdiv prec emax x y.

(** The real number a finite [float32] denotes ([0] for the others). *)
Definition to_Q (x : t) : Q :=
  match x with
  | S754_finite s m e =>
      let v := (inject_Z (Zpos m) * Qpower 2 e)%Q in
      if s then Qopp v else v
  | _ => 0%Q
  end.

(** [x * 10^digits] rounded to the nearest integer, ties to even: the
    decimal rounding [strconv.FormatFloat] applies for the ['f'] format
    with a fixed precision. *)
Definition scaled_round (m : positive) (e : Z) (digits : Z) : Z :=
  let num := Zpos m * 10 ^ digits in
  if 0 <=? e then num * 2 ^ e
  else
    let den := 2 ^ (- e) in
    let q := num / den in
    let r := num mod den in
    match 2 * r ?= den with
    | Lt => q
    | Gt => q + 1
    | Eq => if Z.even q then q else q + 1
    end.

(** [fmt.Sprintf("%.6f", x)]. *)
Definition format_f6 (x : t) : string :=
  match x with
  | S754_zero s => ((if s then "-" else "") ++ "0.000000")%string
  | S754_infinity s => if s then "-Inf" else "+Inf"
  | S754_nan => "NaN"
  | S754_finite s m e =>
      let k := scaled_round m e 6 in
      ((if s then "-" else "")
         ++ Strconv.utoa (k / 1000000) ++ "."
         ++ Strconv.fixed_digits 6 (k mod 1000000))%string
  end.

(** The 32 bits of a canonical [float32] ([math.Float32bits]). *)
Definition bits (x : t) : Z :=
  let sign (s : bool) := if s then 2 ^ 31 else 0 in
  match x with
  | S754_zero s => sign s
  | S754_infinity s => sign s + 255 * 2 ^ 23
  | S754_nan => 255 * 2 ^ 23 + 2 ^ 22
  | S754_finite s m e =>
      if Zpos m <? 2 ^ 23 then sign s + Zpos m
      else sign s + (e + 150) * 2 ^ 23 + (Zpos m - 2 ^ 23)
  end.

(** The four bytes [binary.Write(buf, binary.LittleEndian, x)] appends. *)
Definition le_bytes (x : t) : list Byte.byte :=
  let b (k : Z) :=
    byte_of_ascii (ascii_of_N (Z.to_N (Z.shiftr (bits x) (8 * k) mod 256))) in
  [b 0; b 1; b 2; b 3].

End F32.

(* ===================================================================== *)
(** ** Decimal numerals, as a JSON reader understands them *)
(* ===================================================================== *)

Module Decimal.

(** The value of a string of decimal digits; [None] if another character
    occurs. *)
Fixpoint digits_value (s : string) (acc : Z) : option Z :=
  match s with
  | EmptyString => Some acc
  | String c rest =>
      if Strconv.is_digit c
      then digits_value rest (acc * 10 + Strconv.digit_val c)
      else None
  end.

Definition unsigned_value (s : string) : option Q :=
  match Strings.Split s "." with
  | [int_part] =>
      match int_part, digits_value int_part 0 with
      | String _ _, Some n => Some (inject_Z n)
      | _, _ => None
      end
  | [int_part; frac_part] =>
      match int_part, frac_part,
            digits_value int_part 0, digits_value frac_part 0 with
      | String _ _, String _ _, Some n, Some f =>
          Some (inject_Z n
                + inject_Z f / inject_Z (10 ^ Z.of_nat (String.length frac_part)))%Q
      | _, _, _, _ => None
      end
  | _ => None
  end.

(** The rational a numeral [-?digits(.digits)?] denotes. *)
Definition value (s : string) : option Q :=
  match s with
  | String "-" rest =>
      match unsigned_value rest with
      | Some q => Some (Qopp q)
      | None => None
      end
  | _ => unsigned_value s
  end.

End Decimal.

(* ===================================================================== *)
(** ** Files: [os.Open] and [encoding/csv] *)
(* ===================================================================== *)

Module Csv.

(** A CSV file is represented by its records, each a list of fields. *)
Definition file : Type := list (list string).

(** The first record from line [line] on that does not have [n] fields. *)
Fixpoint check_fields (n : nat) (line : Z) (rows : file) : option error :=
  match rows with
  | [] => None
  | row :: rest =>
      if Nat.eqb (List.length row) n then check_fields n (line + 1) rest
      else Some (ErrFieldCount line)
  end.

(** [csv.NewReader(...).ReadAll()]: with [FieldsPerRecord = 0] the first
    record fixes the number of fields of all the others, and the first
    record of another length makes the whole read fail. *)
Definition ReadAll (f : file) : error + list (list string) :=
  match f with
  | [] => inr []
  | first :: rest =>
      match check_fields (List.length first) 2 rest with
      | Some err => inl err
      | None => inr f
      end
  end.

End Csv.

(** [os.Open(name)] over the files present. *)
Definition Open (fs : gmap string Csv.file) (name : string) : error + Csv.file :=
  match fs !! name with
  | Some f => inr f
  | None => inl (PathError "open" name)
  end.

(* ===================================================================== *)
(** ** The Redis client *)
(* ===================================================================== *)

(** An argument of [rdb.Do]: a string or a byte slice. *)
Inductive Arg :=
| AStr (s : string)
| ABlob (b : list Byte.byte).

(** A reply as [Cmd.Result()] returns it in an [interface{}]. *)
#[warnings="-register-all"] Inductive Reply :=
| RNil
| RInt (n : Z)
| RStr (s : string)
| RArr (items : list Reply).

(** What one call of [rdb.Do(ctx, args...)] gives back: the reply or the
    error, and the time the call took on the monotonic clock. *)
Record Response := {
  elapsed_ns : N;
  reply : error + Reply
}.

(** The server behind the client, as a state machine over commands. *)
Class Backend (Conn : Type) := Do : Conn -> list Arg -> Conn * Response.

(** A key-value backend: [JSON.SET key $ doc] binds [key] to [doc],
    replacing an earlier document; it knows no other command. *)
#[export] Instance KeyValue : Backend (gmap string string) :=
  fun store args =>
    match args with
    | [AStr "JSON.SET"; AStr k; AStr "$"; AStr doc] =>
        (<[k := doc]> store, {| elapsed_ns := 0; reply := inr (RStr "OK") |})
    | _ =>
        (store, {| elapsed_ns := 0; reply := inl (BackendError "ERR unknown command") |})
    end.

(** A scripted backend: the responses of the successive calls are given
    in advance, whatever the commands are. *)
#[export] Instance Scripted : Backend (list Response) :=
  fun script _ =>
    match script with
    | resp :: rest => (rest, resp)
    | [] => ([], {| elapsed_ns := 0; reply := inl (BackendError "EOF") |})
    end.

(** [time.Since(start).Milliseconds()] for a call that took [ns]
    nanoseconds; a [time.Duration] saturates at the largest int64. *)
Definition Milliseconds (ns : N) : Z :=
  Z.quot (Z.min (Z.of_N ns) GoInt.maxInt64) 1000000.

(* ===================================================================== *)
(** ** The program *)
(* ===================================================================== *)

Section Program.

Context {Conn : Type} `{Backend Conn}.

(** Everything the program reads and writes: the server behind [rdb],
    the files, standard output (one entry per printed line), and the
    package-level variables [minDuration], [maxDuration], [totalDuration]. *)
Record World := {
  redis : Conn;
  files : gmap string Csv.file;
  stdout : list string;
  minDuration : Z;
  maxDuration : Z;
  totalDuration : Z
}.

Definition with_redis (w : World) (c : Conn) : World :=
  {| redis := c; files := files w; stdout := stdout w;
     minDuration := minDuration w; maxDuration := maxDuration w;
     totalDuration := totalDuration w |}.

Definition Println (w : World) (line : string) : World :=
  {| redis := redis w; files := files w; stdout := stdout w ++ [line];
     minDuration := minDuration w; maxDuration := maxDuration w;
     totalDuration := totalDuration w |}.

Definition with_durations (w : World) (mn mx tot : Z) : World :=
  {| redis := redis w; files := files w; stdout := stdout w;
     minDuration := mn; maxDuration := mx; totalDuration := tot |}.

(** The assignments at the top of [main]. *)
Definition main_init (w : World) : World := with_durations w 999999 0 0.

(** *** Normalisation *)

(** The untyped constant [255.0] as a [float32]. *)
Definition c255 : F32.t := F32.of_int 255.

(** [float32(pixelInt) / 255.0]. *)
Definition pixelFloat (pixelInt : Z) : F32.t :=
  F32.div (F32.of_int pixelInt) c255.

(** *** [StoreData] *)

(** The string [StoreData] appends to [pixelStrings] for one pixel. *)
Definition pixelString (pixelInt : Z) : string :=
  if pixelInt =? 0 then "0" else F32.format_f6 (pixelFloat pixelInt).

(** The inner loop of [StoreData] over [pixelValues]. *)
Fixpoint pixelStrings_loop (pixelValues pixelStrings : list string)
  : error + list string :=
  match pixelValues with
  | [] => inr pixelStrings
  | pixel :: rest =>
      match Strconv.Atoi pixel with
      | inl err => inl err
      | inr pixelInt =>
          pixelStrings_loop rest (pixelStrings ++ [pixelString pixelInt])
      end
  end.

Definition dquote : string := String "034"%char "".

(** [fmt.Sprintf(`{"result": %d, "embedding": [%s]}`, result, embedding)]. *)
Definition jsonData (result : Z) (embedding : string) : string :=
  ("{" ++ dquote ++ "result" ++ dquote ++ ": " ++ Strconv.Itoa result
     ++ ", " ++ dquote ++ "embedding" ++ dquote ++ ": [" ++ embedding ++ "]}")%string.

(** [fmt.Sprintf("number:%d:%d", i, result)]. *)
Definition key (i result : Z) : string :=
  ("number:" ++ Strconv.Itoa i ++ ":" ++ Strconv.Itoa result)%string.

(** The body of the loop of [StoreData] for the record at index [i]. *)
Definition StoreData_row (i : Z) (record : list string) (w : World)
  : World * outcome unit :=
  match record with
  | [] => (w, Panics (IndexOutOfRange 0 0))
  | label :: pixelValues =>
      match Strconv.Atoi label with
      | inl err => (w, Fails err)
      | inr result =>
          match pixelStrings_loop pixelValues [] with
          | inl err => (w, Fails err)
          | inr pixelStrings =>
              let embedding := Strings.Join pixelStrings "," in
              let '(conn, resp) :=
                Do (redis w)
                   [AStr "JSON.SET"; AStr (key i result); AStr "$";
                    AStr (jsonData result embedding)] in
              let w := with_redis w conn in
              match reply resp with
              | inl err => (w, Fails err)
              | inr _ =>
                  (Println w ("Stored JSON for " ++ key i result), Returns tt)
              end
          end
      end
  end.

(** [for i, record := range records] from index [i] on. *)
Fixpoint StoreData_loop (i : Z) (records : list (list string)) (w : World)
  : World * outcome unit :=
  match records with
  | [] => (w, Returns tt)
  | record :: rest =>
      match StoreData_row i record w with
      | (w', Returns _) => StoreData_loop (i + 1) rest w'
      | stopped => stopped
      end
  end.

Definition StoreData (w : World) : World * outcome unit :=
  match Open (files w) "mnist_train.csv" with
  | inl err => (w, Fails err)
  | inr file =>
      match Csv.ReadAll file with
      | inl err => (w, Fails err)
      | inr records =>
          match StoreData_loop 0 records w with
          | (w', Returns _) =>
              (Println w' "All data has been stored in Redis.", Returns tt)
          | stopped => stopped
          end
      end
  end.

(** *** [searchVectorInRedis] *)

(** [binary.Write] into a [bytes.Buffer] cannot fail for a [float32]. *)
Fixpoint convertFloat32ArrayToBlob_loop (vector : list F32.t)
  (buf : list Byte.byte) : error + list Byte.byte :=
  match vector with
  | [] => inr buf
  | v :: rest => convertFloat32ArrayToBlob_loop rest (buf ++ F32.le_bytes v)
  end.

Definition convertFloat32ArrayToBlob (vector : list F32.t)
  : error + list Byte.byte :=
  convertFloat32ArrayToBlob_loop vector [].

Definition searchQuery (embeddingBytes : list Byte.byte) : list Arg :=
  [AStr "FT.SEARCH"; AStr "mnist_index";
   AStr "*=>[KNN 1 @embedding $blob AS dist]";
   AStr "SORTBY"; AStr "dist";
   AStr "PARAMS"; AStr "2"; AStr "blob"; ABlob embeddingBytes;
   AStr "DIALECT"; AStr "2"].

(** Returns the label found and the duration of the call. *)
Definition searchVectorInRedis (rdb : Conn) (embedding : list F32.t)
  : Conn * outcome (Z * Z) :=
  match convertFloat32ArrayToBlob embedding with
  | inl err => (rdb, Fails err)
  | inr embeddingBytes =>
      let '(rdb', resp) := Do rdb (searchQuery embeddingBytes) in
      let duration := Milliseconds (elapsed_ns resp) in
      match reply resp with
      | inl err => (rdb', Fails err)
      | inr (RArr items) =>
          if Nat.eqb (List.length items) 0
          then (rdb', Fails (Errorf "unexpected result format"))
          else
            match items !! 1%nat with
            | None =>
                (rdb', Panics (IndexOutOfRange 1 (Z.of_nat (List.length items))))
            | Some (RStr id) =>
                let parts := Strings.Split id ":" in
                match last parts with
                | None => (rdb', Panics (IndexOutOfRange (-1) 0))
                | Some lastPart =>
                    match Strconv.Atoi lastPart with
                    | inl err => (rdb', Fails err)
                    | inr parsedInt => (rdb', Returns (parsedInt, duration))
                    end
                end
            | Some _ => (rdb', Panics InterfaceConversion)
            end
      | inr _ => (rdb', Fails (Errorf "unexpected result format"))
      end
  end.

(** *** [SearchData] *)

(** The inner loop of [SearchData] over [pixelValues]. *)
Fixpoint embedding_loop (pixelValues : list string) (embedding : list F32.t)
  : error + list F32.t :=
  match pixelValues with
  | [] => inr embedding
  | pixel :: rest =>
      match Strconv.Atoi pixel with
      | inl err => inl err
      | inr pixelInt => embedding_loop rest (embedding ++ [pixelFloat pixelInt])
      end
  end.

(** ["Test image %d: expected = %d, found = %d in %dms"]. *)
Definition test_image_line (i expectedResult foundLabel duration : Z) : string :=
  ("Test image " ++ Strconv.Itoa i ++ ": expected = " ++ Strconv.Itoa expectedResult
     ++ ", found = " ++ Strconv.Itoa foundLabel
     ++ " in " ++ Strconv.Itoa duration ++ "ms")%string.

(** The body of the loop of [SearchData] for the record at index [i],
    with the current values of [correctGuess] and [wrongGuess]. *)
Definition SearchData_row (i : Z) (record : list string)
  (correctGuess wrongGuess : Z) (w : World) : World * outcome (Z * Z) :=
  match record with
  | [] => (w, Panics (IndexOutOfRange 0 0))
  | label :: pixelValues =>
      match Strconv.Atoi label with
      | inl err => (w, Fails err)
      | inr expectedResult =>
          match embedding_loop pixelValues [] with
          | inl err => (w, Fails err)
          | inr embedding =>
              match searchVectorInRedis (redis w) embedding with
              | (conn, Fails err) => (with_redis w conn, Fails err)
              | (conn, Panics p) => (with_redis w conn, Panics p)
              | (conn, Returns (foundLabel, duration)) =>
                  let w := with_redis w conn in
                  let mn := if duration <? minDuration w
                            then duration else minDuration w in
                  let mx := if duration >? maxDuration w
                            then duration else maxDuration w in
                  let w := with_durations w mn mx
                             (GoInt.add (totalDuration w) duration) in
                  let w := Println w
                             (test_image_line i expectedResult foundLabel duration) in
                  if expectedResult =? foundLabel
                  then (w, Returns (GoInt.add correctGuess 1, wrongGuess))
                  else (w, Returns (correctGuess, GoInt.add wrongGuess 1))
              end
          end
      end
  end.

Fixpoint SearchData_loop (i : Z) (records : list (list string))
  (correctGuess wrongGuess : Z) (w : World) : World * outcome (Z * Z) :=
  match records with
  | [] => (w, Returns (correctGuess, wrongGuess))
  | record :: rest =>
      match SearchData_row i record correctGuess wrongGuess w with
      | (w', Returns (correctGuess', wrongGuess')) =>
          SearchData_loop (i + 1) rest correctGuess' wrongGuess' w'
      | stopped => stopped
      end
  end.

(** The accuracy expression [100*correctGuess/(wrongGuess+correctGuess)]. *)
Definition accuracy (correctGuess wrongGuess : Z) : option Z :=
  GoInt.quo (GoInt.mul 100 correctGuess) (GoInt.add wrongGuess correctGuess).

(** The average expression [totalDuration/int64(len(records))]. *)
Definition averageDuration (total : Z) (records : list (list string)) : option Z :=
  GoInt.quo total (Z.of_nat (List.length records)).

Definition SearchData (w : World) : World * outcome unit :=
  match Open (files w) "mnist_test.csv" with
  | inl err => (w, Fails err)
  | inr file =>
      match Csv.ReadAll file with
      | inl err => (w, Fails err)
      | inr records =>
          match SearchData_loop 0 records 0 0 w with
          | (w, Returns (correctGuess, wrongGuess)) =>
              let w := Println w ("Number of Correct guess = "
                                    ++ Strconv.Itoa correctGuess) in
              let w := Println w ("Number of Wrong guess = "
                                    ++ Strconv.Itoa wrongGuess) in
              match accuracy correctGuess wrongGuess with
              | None => (w, Panics DivideByZero)
              | Some acc =>
                  let w := Println w ("Accuracy = " ++ Strconv.Itoa acc ++ "%") in
                  let w := Println w ("Redis Vector Search Min Duration = "
                                        ++ Strconv.Itoa (minDuration w) ++ "ms") in
                  let w := Println w ("Redis Vector Search Max Duration = "
                                        ++ Strconv.Itoa (maxDuration w) ++ "ms") in
                  match averageDuration (totalDuration w) records with
                  | None => (w, Panics DivideByZero)
                  | Some avg =>
                      (Println w ("Redis Vector Search Average Duration = "
                                    ++ Strconv.Itoa avg ++ "ms"),
                       Returns tt)
                  end
              end
          | (w, Fails err) => (w, Fails err)
          | (w, Panics p) => (w, Panics p)
          end
      end
  end.

End Program.

(* ===================================================================== *)
(** ** Vocabulary of the specification *)
(* ===================================================================== *)

(** The normalised value [SearchData] computes for the raw intensity [p]. *)
Definition queryValue (p : Z) : Q := F32.to_Q (pixelFloat p).

(** The normalised value [StoreData] writes for the raw intensity [p]: the
    number its pixel string denotes. *)
Definition storedValue (p : Z) : option Q := Decimal.value (pixelString p).

(** Half a unit in the last place of a finite [float32]. *)
Definition half_ulp (x : F32.t) : Q :=
  match x with
  | S754_finite _ _ e => Qpower 2 (e - 1)
  | _ => 0%Q
  end.

(** The raw intensities [0 .. 255]. *)
Definition intensities : list Z := map Z.of_nat (seq 0 256).

(** What the normalisation does at [p], as a decidable check: the query
    value is a valid [float32] within half an ulp of [p / 255]; the stored
    numeral has six decimals and lies within [5e-7] of the query value;
    the two coincide exactly at [0] and [255]. *)
Definition normalisation_check (p : Z) : bool :=
  let x := pixelFloat p in
  valid_binary F32.prec F32.emax x
  && Qle_bool (Qabs (F32.to_Q x - inject_Z p / 255)) (half_ulp x)
  && match storedValue p with
     | Some s =>
         Qle_bool (Qabs (s - queryValue p)) (1 # 2000000)
         && Qeq_bool (inject_Z (Qnum (Qred (s * 1000000))) / 1000000) s
         && Bool.eqb (Qeq_bool s (queryValue p)) ((p =? 0) || (p =? 255))
     | None => false
     end.

(** Whether the byte [c] occurs in [s]. *)
Fixpoint occurs (c : ascii) (s : string) : bool :=
  match s with
  | EmptyString => false
  | String c' rest => Ascii.eqb c' c || occurs c rest
  end.

(** Whether [s] consists of decimal digits only. *)
Fixpoint all_digits (s : string) : bool :=
  match s with
  | EmptyString => true
  | String c rest => Strconv.is_digit c && all_digits rest
  end.

(** The first field of a record, label first, that [strconv.Atoi] rejects. *)
Fixpoint first_bad_field (record : list string) : option error :=
  match record with
  | [] => None
  | field :: rest =>
      match Strconv.Atoi field with
      | inl err => Some err
      | inr _ => first_bad_field rest
      end
  end.

(** A record [StoreData] accepts: a label and pixels that are all numbers. *)
Definition well_formed (record : list string) : bool :=
  match record, first_bad_field record with
  | _ :: _, None => true
  | _, _ => false
  end.

(** The six lines [SearchData] prints after its loop. *)
Definition summary_lines (correct wrong acc mn mx avg : Z) : list string :=
  [ "Number of Correct guess = " ++ Strconv.Itoa correct;
    "Number of Wrong guess = " ++ Strconv.Itoa wrong;
    "Accuracy = " ++ Strconv.Itoa acc ++ "%";
    "Redis Vector Search Min Duration = " ++ Strconv.Itoa mn ++ "ms";
    "Redis Vector Search Max Duration = " ++ Strconv.Itoa mx ++ "ms";
    "Redis Vector Search Average Duration = " ++ Strconv.Itoa avg ++ "ms" ]%string.

(** One evaluated query: expected label, label found, duration in ms. *)
Record Query := {
  expected : Z;
  found : Z;
  latency : Z
}.

Definition is_correct (q : Query) : bool := expected q =? found q.

Definition correct_count (qs : list Query) : Z :=
  Z.of_nat (List.length (List.filter is_correct qs)).

Definition wrong_count (qs : list Query) : Z :=
  Z.of_nat (List.length (List.filter (fun q => negb (is_correct q)) qs)).

Definition total_latency (qs : list Query) : Z :=
  fold_right Z.add 0 (map latency qs).

Fixpoint query_lines (i : Z) (qs : list Query) : list string :=
  match qs with
  | [] => []
  | q :: rest =>
      test_image_line i (expected q) (found q) (latency q)
        :: query_lines (i + 1) rest
  end.

Section Queries.

Context {Conn : Type} `{Backend Conn}.

(** The queries of an evaluation run over [records] against the server
    state [rdb], in order, up to the first record whose parsing or
    search does not complete. *)
Fixpoint queries (rdb : Conn) (records : list (list string)) : list Query :=
  match records with
  | (label :: pixelValues) :: rest =>
      match Strconv.Atoi label, embedding_loop pixelValues [] with
      | inr e, inr embedding =>
          match searchVectorInRedis rdb embedding with
          | (rdb', Returns (f, d)) =>
              {| expected := e; found := f; latency := d |} :: queries rdb' rest
          | _ => []
          end
      | _, _ => []
      end
  | _ => []
  end.

End Queries.

(** A reply of [FT.SEARCH] with one hit: the total, the key of the
    document, and its fields. *)
Definition hit (total : Z) (id : string) (fields : list Reply) : Reply :=
  RArr [RInt total; RStr id; RArr fields].

(* ===================================================================== *)
(** ** Sample runs *)
(* ===================================================================== *)

(** The worlds over the key-value backend. *)
Abbreviation KVWorld := (World (Conn := gmap string string)).

(** A world before [main] has assigned anything: the server state [rdb],
    the two CSV files, nothing printed, the variables at their zero value. *)
Definition world {Conn : Type} (rdb : Conn) (train test : Csv.file)
  : World (Conn := Conn) :=
  {| redis := rdb;
     files := <["mnist_train.csv" := train]>
                (<["mnist_test.csv" := test]> (empty : gmap string Csv.file));
     stdout := [];
     minDuration := 0; maxDuration := 0; totalDuration := 0 |}.

(** The response of a search that took [ms] milliseconds and found the
    document of row [i] with label [L]. *)
Definition found_in (ms : N) (i L : Z) : Response :=
  {| elapsed_ns := ms * 1000000;
     reply := inr (hit 1 (key i L) [RStr "dist"; RStr "0"]) |}.

(** The response of a search over an index without documents. *)
Definition no_hits : Response :=
  {| elapsed_ns := 1000000; reply := inr (RArr [RInt 0]) |}.

(** Ten test rows of two pixels, and answers that agree with nine of the
    ten labels. *)
Definition ten_rows : Csv.file :=
  map (fun label => [label; "0"; "255"])
      ["7"; "2"; "1"; "0"; "4"; "1"; "4"; "9"; "5"; "9"].

Definition ten_answers : list Response :=
  map (found_in 30 0) [7; 2; 1; 0; 4; 1; 4; 9; 6; 9].

(** Three training rows, the second with a label that is not a number. *)
Definition rows_with_bad_label : Csv.file :=
  [["5"; "0"; "255"]; ["x"; "0"; "0"]; ["3"; "1"; "2"]].

(* ===================================================================== *)
(** ** The rest of the program: [CreateIndex], [main], and the blob layout *)
(* ===================================================================== *)

(** [strings.Contains(s, substr)]. *)
Fixpoint Contains (s substr : string) : bool :=
  String.prefix substr s
  || match s with
     | EmptyString => false
     | String _ rest => Contains rest substr
     end.

(** [math.Float32frombits]: the [float32] whose 32 bits are [b]. *)
Definition Float32frombits (b : Z) : F32.t :=
  let s := Z.odd (b / 2 ^ 31) in
  let biased := (b / 2 ^ 23) mod 256 in
  let fraction := b mod 2 ^ 23 in
  if biased =? 255 then
    if fraction =? 0 then S754_infinity s else S754_nan
  else if biased =? 0 then
    match fraction with
    | Zpos m => S754_finite s m (-149)
    | _ => S754_zero s
    end
  else
    match fraction + 2 ^ 23 with
    | Zpos m => S754_finite s m (biased - 150)
    | _ => S754_nan
    end.

Definition byte_value (b : Byte.byte) : Z := Z.of_N (Byte.to_N b).

(** The [float32] values a blob holds, four little-endian bytes each;
    [None] if the length is not a multiple of four. *)
Fixpoint blobToFloat32Array (blob : list Byte.byte) : option (list F32.t) :=
  match blob with
  | [] => Some []
  | b0 :: b1 :: b2 :: b3 :: rest =>
      match blobToFloat32Array rest with
      | Some vector =>
          Some (Float32frombits
                  (byte_value b0 + 2 ^ 8 * byte_value b1
                   + 2 ^ 16 * byte_value b2 + 2 ^ 24 * byte_value b3)
                  :: vector)
      | None => None
      end
  | _ => None
  end.

(** The levels of [log/slog] the program uses. *)
Inductive Level := LevelInfo | LevelWarn | LevelError.

(** A record handed to [slog]: level, message and string attributes. *)
Record LogRecord := {
  level : Level;
  message : string;
  attrs : list (string * string)
}.

(** How the process ends: [main] returns or calls [os.Exit] (with the
    status), or a panic takes it down. *)
Inductive Ending :=
| Exit (status : Z)
| Crash (p : panic).

Section Startup.

Context {Conn : Type} `{Backend Conn}.

(** The text [err.Error()] of an error; the methods live in the
    libraries the errors come from. *)
Variable Error : error -> string.

Definition createIndex : list Arg :=
  [AStr "FT.CREATE"; AStr "mnist_index"; AStr "ON"; AStr "JSON";
   AStr "PREFIX"; AStr "1"; AStr "number:";
   AStr "SCHEMA"; AStr "$.embedding"; AStr "AS"; AStr "embedding";
   AStr "VECTOR"; AStr "FLAT"; AStr "6"; AStr "DIM"; AStr "784";
   AStr "DISTANCE_METRIC"; AStr "L2"; AStr "TYPE"; AStr "FLOAT32"].

(** Returns the error of the [FT.CREATE] command, if any. *)
Definition CreateIndex (rdb : Conn) : Conn * option error :=
  let '(rdb', resp) := Do rdb createIndex in
  match reply resp with
  | inl err => (rdb', Some err)
  | inr _ => (rdb', None)
  end.

(** What a run of the program leaves: the world, the records logged, whether
    the deferred [rdb.Close()] ran, and how the process ended. *)
Record Run := {
  final : World (Conn := Conn);
  logged : list LogRecord;
  closed : bool;
  ending : Ending
}.

(** [slog.Error(msg, slog.String("error", err.Error()))] then [os.Exit(1)]:
    deferred calls do not run. *)
Definition fatal (w : World (Conn := Conn)) (log : list LogRecord) (msg : string) (err : error)
  : Run :=
  {| final := w;
     logged := log ++ [{| level := LevelError; message := msg;
                          attrs := [("error", Error err)] |}];
     closed := false;
     ending := Exit 1 |}.

(** A panic runs the deferred [rdb.Close()] and takes the process down. *)
Definition crash (w : World) (log : list LogRecord) (p : panic) : Run :=
  {| final := w; logged := log; closed := true; ending := Crash p |}.

Definition main (w : World) : Run :=
  let w := main_init w in
  let '(conn, err) := CreateIndex (redis w) in
  let w := with_redis w conn in
  let created : error + LogRecord :=
    match err with
    | Some err =>
        if Contains (Error err) "Index already exists"
        then inr {| level := LevelWarn; message := "Index already exists.";
                    attrs := [] |}
        else inl err
    | None =>
        inr {| level := LevelInfo; message := "Index Created."; attrs := [] |}
    end in
  match created with
  | inl err => fatal w [] "Could not create search index." err
  | inr record =>
      match StoreData w with
      | (w, Fails err) => fatal w [record] "Could not store data." err
      | (w, Panics p) => crash w [record] p
      | (w, Returns _) =>
          match SearchData w with
          | (w, Fails err) => fatal w [record] "Could not search data." err
          | (w, Panics p) => crash w [record] p
          | (w, Returns _) =>
              {| final := w; logged := [record]; closed := true;
                 ending := Exit 0 |}
          end
      end
  end.

End Startup.

(** The texts of [Error()] for the errors of the sample runs. *)
Definition sample_texts (err : error) : string :=
  match err with
  | NumError func num why =>
      "strconv." ++ func ++ ": parsing " ++ dquote ++ num ++ dquote ++ ": "
        ++ match why with
           | ErrSyntax => "invalid syntax"
           | ErrRange => "value out of range"
           end
  | PathError op path => op ++ " " ++ path ++ ": no such file or directory"
  | ErrFieldCount line =>
      "record on line " ++ Strconv.Itoa line ++ ": wrong number of fields"
  | Errorf msg => msg
  | BackendError msg => msg
  end%string.

(** A backend that keeps documents like [KeyValue], creates an index
    once, and answers every search with the responses of a script. *)
Record Server := {
  documents : gmap string string;
  indexed : bool;
  script : list Response
}.

#[export] Instance Scenario : Backend Server :=
  fun srv args =>
    let ok r := {| elapsed_ns := 0; reply := inr r |} in
    let failed msg := {| elapsed_ns := 0; reply := inl (BackendError msg) |} in
    match args with
    | AStr "FT.CREATE" :: _ =>
        if indexed srv then (srv, failed "Index already exists")
        else ({| documents := documents srv; indexed := true;
                 script := script srv |}, ok (RStr "OK"))
    | [AStr "JSON.SET"; AStr k; AStr "$"; AStr doc] =>
        ({| documents := <[k := doc]> (documents srv); indexed := indexed srv;
            script := script srv |}, ok (RStr "OK"))
    | AStr "FT.SEARCH" :: _ =>
        match script srv with
        | resp :: rest =>
            ({| documents := documents srv; indexed := indexed srv;
                script := rest |}, resp)
        | [] => (srv, failed "EOF")
        end
    | _ => (srv, failed "ERR unknown command")
    end.

(* ===================================================================== *)
(** ** Further vocabulary *)
(* ===================================================================== *)

(** The check that normalisation keeps the order of the intensities [p]
    and [p + 1], within [0, 1], for the query values and for the stored
    numerals. *)
Definition normalisation_order_check (p : Z) : bool :=
  match storedValue p, storedValue (p + 1) with
  | Some s, Some t =>
      negb (Qle_bool (queryValue (p + 1)) (queryValue p))
      && negb (Qle_bool t s)
      && Qle_bool 0 (queryValue p) && Qle_bool (queryValue (p + 1)) 1
      && Qle_bool 0 s && Qle_bool t 1
  | _, _ => false
  end.

(** The key and the document of each record from index [i] on, up to the
    first record that is not well formed. *)
Fixpoint entries (i : Z) (records : list (list string)) : list (string * string) :=
  match records with
  | (label :: pixelValues) :: rest =>
      match Strconv.Atoi label, pixelStrings_loop pixelValues [] with
      | inr result, inr pixelStrings =>
          (key i result, jsonData result (Strings.Join pixelStrings ","))
            :: entries (i + 1) rest
      | _, _ => []
      end
  | _ => []
  end.

(** The store after [JSON.SET] of the entries, in order. *)
Definition set_all (store : gmap string string) (kvs : list (string * string))
  : gmap string string :=
  fold_left (fun m kv => <[fst kv := snd kv]> m) kvs store.

(** The worlds over the scripted backend. *)
Abbreviation ScriptWorld := (World (Conn := list Response)).

(* ===================================================================== *)
(** ** Further sample runs *)
(* ===================================================================== *)

(** Two training rows of two pixels. *)
Definition two_rows : Csv.file := [["5"; "0"; "255"]; ["3"; "1"; "2"]].

(** The response [OK] of a command that took no time. *)
Definition replied_ok : Response :=
  {| elapsed_ns := 0; reply := inr (RStr "OK") |}.

(** A server without documents, with or without the index, that will
    answer the searches with [answers]. *)
Definition server (has_index : bool) (answers : list Response) : Server :=
  {| documents := empty; indexed := has_index; script := answers |}.

(* ===================================================================== *)
(** * Properties *)
(* ===================================================================== *)

(** Goals that only need the bounds of int64 and uint64 spelled out. *)
Ltac int64_bounds :=
  unfold GoInt.in_range, GoInt.minInt64, GoInt.maxInt64, GoInt.maxUint64 in *;
  lia.

(** ** Decimal rendering and parsing *)

Section StrconvFacts.
Import Strconv.

Lemma digit_cases (d : Z) :
  0 <= d < 10 ->
  d = 0 \/ d = 1 \/ d = 2 \/ d = 3 \/ d = 4 \/ d = 5 \/ d = 6 \/ d = 7 \/ d = 8 \/ d = 9.
Proof. lia. Qed.

Lemma digit_val_digit_char (d : Z) : 0 <= d < 10 -> digit_val (digit_char d) = d.
Proof.
  intros Hd. destruct (digit_cases d Hd) as [-> | [-> | [-> | [-> | [-> | [-> | [-> | [-> | [-> | ->]]]]]]]]];
    reflexivity.
Qed.

Lemma is_digit_digit_char (d : Z) : 0 <= d < 10 -> is_digit (digit_char d) = true.
Proof.
  intros Hd. destruct (digit_cases d Hd) as [-> | [-> | [-> | [-> | [-> | [-> | [-> | [-> | [-> | ->]]]]]]]]];
    reflexivity.
Qed.

Lemma append_nil_l (b : string) : ("" ++ b = b)%string.
Proof. reflexivity. Qed.

Lemma append_cons (x : ascii) (a b : string) :
  (String x a ++ b = String x (a ++ b))%string.
Proof. reflexivity. Qed.

Lemma append_assoc (a b c : string) : ((a ++ b) ++ c = a ++ (b ++ c))%string.
Proof.
  induction a as [| x a IH]; [reflexivity |].
  now rewrite !append_cons, IH.
Qed.

Lemma digits_acc (fuel : nat) :
  forall n acc, digits fuel n acc = (digits fuel n "" ++ acc)%string.
Proof.
  induction fuel as [| fuel IH]; intros n acc; simpl; [reflexivity |].
  destruct (n <? 10); [reflexivity |].
  rewrite (IH (n / 10) (String _ acc)), (IH (n / 10) (String _ "")), append_assoc.
  reflexivity.
Qed.

Lemma digits_fuel (f1 : nat) :
  forall f2 n acc,
    0 <= n < 10 ^ Z.of_nat (S f1) -> n < 10 ^ Z.of_nat (S f2) ->
    digits (S f1) n acc = digits (S f2) n acc.
Proof.
  induction f1 as [| f1 IH]; intros f2 n acc H1 H2.
  - change (10 ^ Z.of_nat 1) with 10 in H1. simpl.
    destruct (n <? 10) eqn:Hn; [reflexivity | apply Z.ltb_ge in Hn; lia].
  - cbn [digits]. destruct (n <? 10) eqn:Hn; [reflexivity |].
    apply Z.ltb_ge in Hn.
    rewrite Nat2Z.inj_succ, Z.pow_succ_r in H1, H2 by lia.
    destruct f2 as [| f2]; [change (10 ^ Z.of_nat 0) with 1 in H2; lia |].
    apply IH.
    + split; [apply Z.div_pos; lia | apply Z.div_lt_upper_bound; lia].
    + apply Z.div_lt_upper_bound; lia.
Qed.

Lemma lt_pow10_log2 (n : Z) : 0 <= n -> n < 10 ^ Z.of_nat (S (Z.to_nat (Z.log2 n))).
Proof.
  intros Hn. rewrite Nat2Z.inj_succ, Z2Nat.id by apply Z.log2_nonneg.
  destruct (Z.eq_dec n 0) as [-> | Hne]; [reflexivity |].
  pose proof (Z.log2_spec n ltac:(lia)) as [_ Hlt].
  eapply Z.lt_le_trans; [exact Hlt |].
  apply Z.pow_le_mono_l. lia.
Qed.

Lemma utoa_small (n : Z) : 0 <= n < 10 -> utoa n = String (digit_char n) "".
Proof.
  intros Hn. unfold utoa. simpl.
  rewrite Z.mod_small by lia.
  destruct (n <? 10) eqn:E; [reflexivity | apply Z.ltb_ge in E; lia].
Qed.

Lemma utoa_step (n : Z) :
  10 <= n -> utoa n = (utoa (n / 10) ++ String (digit_char (n mod 10)) "")%string.
Proof.
  intros Hn. unfold utoa at 1. simpl.
  destruct (n <? 10) eqn:E; [apply Z.ltb_lt in E; lia |].
  rewrite digits_acc. f_equal.
  assert (0 <= n / 10) by (apply Z.div_pos; lia).
  destruct (Z.to_nat (Z.log2 n)) as [| k] eqn:Hk.
  - exfalso. assert (Z.log2 n = 0) as Hl by (pose proof (Z.log2_nonneg n); lia).
    pose proof (Z.log2_spec n ltac:(lia)) as [_ Hlt]. rewrite Hl in Hlt. simpl in Hlt. lia.
  - apply digits_fuel.
    + split; [assumption |].
      apply Z.div_lt_upper_bound; [lia |].
      pose proof (Z.log2_spec n ltac:(lia)) as [_ Hlt].
      assert (Z.log2 n = Z.of_nat (S k)) as Hl by (pose proof (Z.log2_nonneg n); lia).
      rewrite Hl in Hlt. rewrite Nat2Z.inj_succ in *.
      rewrite Z.pow_succ_r in * by lia.
      assert (2 ^ Z.succ (Z.of_nat k) <= 10 ^ Z.succ (Z.of_nat k))
        by (apply Z.pow_le_mono_l; lia).
      rewrite !Z.pow_succ_r in * by lia. lia.
    + apply lt_pow10_log2. assumption.
Qed.

(** Induction along the decimal digits of a natural number. *)
Lemma decimal_ind (P : Z -> Prop) :
  (forall n, 0 <= n < 10 -> P n) ->
  (forall n, 10 <= n -> P (n / 10) -> P n) ->
  forall n, 0 <= n -> P n.
Proof.
  intros Hsmall Hstep n Hn.
  induction n as [n IH] using (well_founded_induction (Z.lt_wf 0)).
  destruct (Z_lt_le_dec n 10) as [Hlt | Hge].
  - apply Hsmall. lia.
  - apply Hstep; [assumption |]. apply IH.
    + split; [apply Z.div_pos; lia | apply Z.div_lt; lia].
    + apply Z.div_pos; lia.
Qed.

Lemma parseUint_loop_app (s t : string) :
  forall a, parseUint_loop (s ++ t) a =
            match parseUint_loop s a with
            | inr v => parseUint_loop t v
            | inl e => inl e
            end.
Proof.
  induction s as [| c s IH]; intros a; [reflexivity |].
  rewrite append_cons. simpl.
  destruct (is_digit c); [| reflexivity].
  destruct (a >=? _); [reflexivity |].
  destruct (_ >? _); [reflexivity |]. apply IH.
Qed.

Lemma parseUint_loop_digit (d a : Z) :
  0 <= d < 10 -> 0 <= a -> a * 10 + d <= GoInt.maxUint64 ->
  parseUint_loop (String (digit_char d) "") a = inr (a * 10 + d).
Proof.
  intros Hd Ha Hmax. cbn [parseUint_loop].
  rewrite is_digit_digit_char, digit_val_digit_char by assumption.
  unfold GoInt.maxUint64 in *.
  change (18446744073709551615 / 10 + 1) with 1844674407370955162.
  destruct (Z.geb_spec a 1844674407370955162); [lia |].
  destruct (Z.gtb_spec (a * 10 + d) 18446744073709551615); [lia | reflexivity].
Qed.

Lemma parseUint_loop_utoa (n : Z) :
  0 <= n -> n <= GoInt.maxUint64 -> parseUint_loop (utoa n) 0 = inr n.
Proof.
  intros Hn. pattern n. revert n Hn. apply decimal_ind.
  - intros n Hn Hmax. rewrite utoa_small by assumption.
    rewrite parseUint_loop_digit by lia. f_equal.
  - intros n Hn IH Hmax.
    assert (0 <= n mod 10 < 10) as Hd by (apply Z.mod_pos_bound; lia).
    pose proof (Z.div_mod n 10 ltac:(lia)) as Hdm.
    assert (0 <= n / 10) by (apply Z.div_pos; lia).
    unfold GoInt.maxUint64 in *.
    rewrite utoa_step, parseUint_loop_app, IH by lia.
    rewrite parseUint_loop_digit by int64_bounds.
    f_equal. lia.
Qed.

Lemma digits_value_app (s t : string) :
  forall a, Decimal.digits_value (s ++ t) a =
            match Decimal.digits_value s a with
            | Some v => Decimal.digits_value t v
            | None => None
            end.
Proof.
  induction s as [| c s IH]; intros a; [reflexivity |].
  rewrite append_cons. simpl.
  destruct (is_digit c); [apply IH | reflexivity].
Qed.

Lemma digits_value_utoa (n : Z) :
  0 <= n -> Decimal.digits_value (utoa n) 0 = Some n.
Proof.
  revert n. apply decimal_ind.
  - intros n Hn. rewrite utoa_small by assumption. simpl.
    now rewrite is_digit_digit_char, digit_val_digit_char.
  - intros n Hn IH.
    assert (0 <= n mod 10 < 10) as Hd by (apply Z.mod_pos_bound; lia).
    rewrite utoa_step, digits_value_app, IH by lia. simpl.
    rewrite is_digit_digit_char, digit_val_digit_char by assumption.
    f_equal. pose proof (Z.div_mod n 10 ltac:(lia)). lia.
Qed.

Lemma all_digits_app (s t : string) :
  all_digits (s ++ t) = all_digits s && all_digits t.
Proof.
  induction s as [| c s IH]; [reflexivity |].
  rewrite append_cons. simpl. now rewrite IH, andb_assoc.
Qed.

Lemma all_digits_utoa (n : Z) : 0 <= n -> all_digits (utoa n) = true.
Proof.
  revert n. apply decimal_ind.
  - intros n Hn. rewrite utoa_small by assumption. simpl.
    now rewrite is_digit_digit_char.
  - intros n Hn IH.
    assert (0 <= n mod 10 < 10) as Hd by (apply Z.mod_pos_bound; lia).
    rewrite utoa_step, all_digits_app, IH by lia. simpl.
    now rewrite is_digit_digit_char.
Qed.

Lemma utoa_head (n : Z) :
  0 <= n -> exists c s, utoa n = String c s /\ is_digit c = true.
Proof.
  revert n. apply decimal_ind.
  - intros n Hn. rewrite utoa_small by assumption.
    eexists _, _. split; [reflexivity | now apply is_digit_digit_char].
  - intros n Hn (c & s & Hs & Hc). rewrite utoa_step, Hs, append_cons by lia.
    eauto.
Qed.
End StrconvFacts.

Section ItoaFacts.
Import Strconv.

Lemma ParseUint_utoa (n : Z) :
  0 <= n -> n <= GoInt.maxUint64 -> ParseUint (utoa n) = inr n.
Proof.
  intros Hn Hmax. destruct (utoa_head n Hn) as (c & s & Hs & _).
  unfold ParseUint. rewrite <- (parseUint_loop_utoa n Hn Hmax), Hs. reflexivity.
Qed.

(** Parsing what [Itoa] prints gives the integer back, over all of int64. *)
Lemma Atoi_Itoa (z : Z) : GoInt.in_range z -> Atoi (Itoa z) = inr z.
Proof.
  unfold GoInt.in_range, GoInt.minInt64, GoInt.maxInt64. intros Hz.
  unfold Atoi, ParseInt, Itoa.
  destruct (Z.ltb_spec z 0) as [Hneg | Hpos].
  - cbn [Ascii.eqb Bool.eqb orb andb negb].
    rewrite ParseUint_utoa by int64_bounds.
    destruct (Z.gtb_spec (- z) (2 ^ 63)); [lia |]. f_equal. lia.
  - destruct (utoa_head z Hpos) as (c & s & Hs & Hc).
    pose proof (ParseUint_utoa z Hpos ltac:(int64_bounds)) as HP.
    rewrite Hs in *.
    assert (Ascii.eqb c "-" = false) as ->
        by (apply Ascii.eqb_neq; intros ->; discriminate).
    assert (Ascii.eqb c "+" = false) as ->
        by (apply Ascii.eqb_neq; intros ->; discriminate).
    cbn [orb andb negb]. rewrite HP.
    destruct (Z.geb_spec z (2 ^ 63)); [lia | reflexivity].
Qed.

Lemma utoa_inj (a b : Z) : 0 <= a -> 0 <= b -> utoa a = utoa b -> a = b.
Proof.
  intros Ha Hb E. apply (f_equal (fun s => Decimal.digits_value s 0)) in E.
  rewrite !digits_value_utoa in E by assumption. congruence.
Qed.

Lemma Itoa_inj (a b : Z) : Itoa a = Itoa b -> a = b.
Proof.
  unfold Itoa.
  destruct (Z.ltb_spec a 0) as [Ha | Ha], (Z.ltb_spec b 0) as [Hb | Hb]; intros E.
  - injection E as E. apply utoa_inj in E; lia.
  - destruct (utoa_head b Hb) as (c & s & Hs & Hc). rewrite Hs in E.
    injection E as <- _. discriminate.
  - destruct (utoa_head a Ha) as (c & s & Hs & Hc). rewrite Hs in E.
    injection E as -> _. discriminate.
  - now apply utoa_inj.
Qed.

Lemma occurs_app (c : ascii) (s t : string) :
  occurs c (s ++ t) = occurs c s || occurs c t.
Proof.
  induction s as [| x s IH]; [reflexivity |].
  rewrite append_cons. simpl. now rewrite IH, orb_assoc.
Qed.

Lemma all_digits_no_colon (s : string) : all_digits s = true -> occurs ":" s = false.
Proof.
  induction s as [| c s IH]; [reflexivity |]. simpl.
  intros [Hc Hs]%andb_true_iff. rewrite (IH Hs), orb_false_r.
  apply Ascii.eqb_neq. intros ->. discriminate.
Qed.

Lemma Itoa_no_colon (z : Z) : occurs ":" (Itoa z) = false.
Proof.
  unfold Itoa. destruct (Z.ltb_spec z 0).
  - simpl. apply all_digits_no_colon, all_digits_utoa. lia.
  - apply all_digits_no_colon, all_digits_utoa. lia.
Qed.
End ItoaFacts.

Section SplitFacts.
Import Strings.

Lemma Split_no_sep (s : string) (sep : ascii) :
  occurs sep s = false -> Split s sep = [s].
Proof.
  induction s as [| c s IH]; [reflexivity |]. simpl.
  intros [Hc Hs]%orb_false_iff. rewrite Hc, (IH Hs). reflexivity.
Qed.

Lemma Split_nonempty (s : string) (sep : ascii) : Split s sep <> [].
Proof.
  induction s as [| c s IH]; simpl; [discriminate |].
  destruct (Ascii.eqb c sep); [discriminate |].
  destruct (Split s sep); [contradiction | discriminate].
Qed.

(** Splitting around an occurrence of the separator. *)
Lemma Split_app_sep (a s : string) (sep : ascii) :
  Split (a ++ String sep s) sep = (Split a sep ++ Split s sep)%list.
Proof.
  induction a as [| c a IH].
  - rewrite append_nil_l. simpl. now rewrite Ascii.eqb_refl.
  - rewrite append_cons. simpl. rewrite IH.
    pose proof (Split_nonempty a sep) as Hne.
    destruct (Ascii.eqb c sep); [reflexivity |].
    destruct (Split a sep); [contradiction | reflexivity].
Qed.

(** The last piece is what follows the last separator. *)
Lemma last_Split_app (a s : string) (sep : ascii) :
  occurs sep s = false -> last (Split (a ++ String sep s) sep) = Some s.
Proof.
  intros Hs. rewrite Split_app_sep, (Split_no_sep s sep Hs). apply last_snoc.
Qed.

Lemma app_sep_inj (sep : ascii) (a a' b b' : string) :
  occurs sep a = false -> occurs sep a' = false ->
  (a ++ String sep b = a' ++ String sep b')%string -> a = a' /\ b = b'.
Proof.
  revert a'. induction a as [| c a IH]; intros [| c' a'] Ha Ha' E.
  - rewrite !append_nil_l in E. injection E as ->. auto.
  - rewrite append_nil_l, append_cons in E. injection E as <- _.
    simpl in Ha'. rewrite Ascii.eqb_refl in Ha'. discriminate.
  - rewrite append_nil_l, append_cons in E. injection E as -> _.
    simpl in Ha. rewrite Ascii.eqb_refl in Ha. discriminate.
  - rewrite !append_cons in E. injection E as -> E.
    simpl in Ha, Ha'. apply orb_false_iff in Ha as [_ Ha], Ha' as [_ Ha'].
    destruct (IH a' Ha Ha' E) as [-> ->]. auto.
Qed.
End SplitFacts.

Section KeyFacts.
Import Strconv Strings.

Lemma key_split (i r : Z) :
  key i r = (("number:" ++ Itoa i) ++ String ":" (Itoa r))%string.
Proof. unfold key. now rewrite append_assoc. Qed.

(** The last [:]-separated part of a key is its label in decimal. *)
Lemma last_Split_key (i r : Z) : last (Split (key i r) ":") = Some (Itoa r).
Proof.
  rewrite key_split. apply last_Split_app, Itoa_no_colon.
Qed.

(** A key determines the row index and the label it was built from. *)
Lemma key_inj (i j r r' : Z) : key i r = key j r' -> i = j /\ r = r'.
Proof.
  unfold key. intros E. apply String.app_inj in E.
  change (":" ++ Itoa r)%string with (String ":" (Itoa r)) in E.
  change (":" ++ Itoa r')%string with (String ":" (Itoa r')) in E.
  apply app_sep_inj in E as [Ei Er]; try apply Itoa_no_colon.
  split; now apply Itoa_inj.
Qed.
End KeyFacts.

(** ** Machine integers *)

Section GoIntFacts.

Lemma wrap_small (z : Z) : GoInt.in_range z -> GoInt.wrap z = z.
Proof.
  unfold GoInt.in_range, GoInt.minInt64, GoInt.maxInt64, GoInt.wrap.
  intros Hz. rewrite Z.mod_small; lia.
Qed.

Lemma wrap_add_l (a b : Z) : GoInt.wrap (GoInt.wrap a + b) = GoInt.wrap (a + b).
Proof.
  unfold GoInt.wrap. f_equal.
  replace ((a + 2 ^ 63) mod 2 ^ 64 - 2 ^ 63 + b + 2 ^ 63)
    with ((a + 2 ^ 63) mod 2 ^ 64 + b) by lia.
  rewrite Zplus_mod_idemp_l. f_equal. lia.
Qed.

Lemma Milliseconds_nonneg (ns : N) : 0 <= Milliseconds ns.
Proof.
  unfold Milliseconds, GoInt.maxInt64. apply Z.quot_pos; lia.
Qed.

End GoIntFacts.

(** ** The search call *)

Section SearchFacts.

Context {Conn : Type} `{Backend Conn}.

Lemma convertFloat32ArrayToBlob_loop_ok (vector : list F32.t) :
  forall buf, exists blob,
    convertFloat32ArrayToBlob_loop vector buf = inr blob /\
    List.length blob = (List.length buf + 4 * List.length vector)%nat.
Proof.
  induction vector as [| v vector IH]; intros buf; simpl.
  - exists buf. split; [reflexivity | lia].
  - destruct (IH (buf ++ F32.le_bytes v)%list) as (blob & E & Hlen).
    exists blob. split; [exact E |].
    rewrite Hlen, length_app. simpl. lia.
Qed.

(** The blob always exists and has four bytes per component. *)
Lemma convertFloat32ArrayToBlob_ok (vector : list F32.t) :
  exists blob, convertFloat32ArrayToBlob vector = inr blob /\
               List.length blob = (4 * List.length vector)%nat.
Proof.
  destruct (convertFloat32ArrayToBlob_loop_ok vector []) as (blob & E & Hlen).
  exists blob. split; [exact E | exact Hlen].
Qed.

(** An error of the backend is returned as it is. *)
Lemma searchVectorInRedis_backend_error (rdb rdb' : Conn) (embedding : list F32.t)
  (blob : list Byte.byte) (resp : Response) (err : error) :
  convertFloat32ArrayToBlob embedding = inr blob ->
  Do rdb (searchQuery blob) = (rdb', resp) ->
  reply resp = inl err ->
  searchVectorInRedis rdb embedding = (rdb', Fails err).
Proof.
  intros Hblob Hdo Herr. unfold searchVectorInRedis.
  rewrite Hblob, Hdo, Herr. reflexivity.
Qed.

(** A reply whose second item is a key decodes to the label in the key. *)
Lemma searchVectorInRedis_key (rdb rdb' : Conn) (embedding : list F32.t)
  (blob : list Byte.byte) (resp : Response) (first : Reply) (more : list Reply)
  (i L : Z) :
  GoInt.in_range L ->
  convertFloat32ArrayToBlob embedding = inr blob ->
  Do rdb (searchQuery blob) = (rdb', resp) ->
  reply resp = inr (RArr (first :: RStr (key i L) :: more)) ->
  searchVectorInRedis rdb embedding
  = (rdb', Returns (L, Milliseconds (elapsed_ns resp))).
Proof.
  intros HL Hblob Hdo Hreply. unfold searchVectorInRedis.
  rewrite Hblob, Hdo, Hreply. cbn [List.length Nat.eqb lookup list_lookup].
  rewrite last_Split_key, Atoi_Itoa by assumption. reflexivity.
Qed.

(** The duration a search reports is never negative. *)
Lemma searchVectorInRedis_latency (rdb rdb' : Conn) (embedding : list F32.t)
  (f d : Z) :
  searchVectorInRedis rdb embedding = (rdb', Returns (f, d)) -> 0 <= d.
Proof.
  unfold searchVectorInRedis.
  destruct (convertFloat32ArrayToBlob embedding) as [err | blob]; [discriminate |].
  destruct (Do rdb (searchQuery blob)) as [c resp].
  destruct (reply resp) as [err | [| n | s | items]]; try discriminate.
  destruct (Nat.eqb _ 0); [discriminate |].
  destruct (items !! 1%nat) as [[| n | id | l] |]; try discriminate.
  destruct (last _); [| discriminate].
  destruct (Strconv.Atoi _); [discriminate |].
  intros [= _ _ <-]. apply Milliseconds_nonneg.
Qed.

End SearchFacts.

(** ** The evaluation loop *)

Section EvaluationFacts.

Context {Conn : Type} `{Backend Conn}.

Lemma wrap_in_range (z : Z) : GoInt.in_range (GoInt.wrap z).
Proof.
  unfold GoInt.in_range, GoInt.minInt64, GoInt.maxInt64, GoInt.wrap.
  pose proof (Z.mod_pos_bound (z + 2 ^ 63) (2 ^ 64) ltac:(lia)). lia.
Qed.

Lemma correct_count_cons (q : Query) (qs : list Query) :
  correct_count (q :: qs) = (if is_correct q then 1 else 0) + correct_count qs.
Proof.
  unfold correct_count. simpl. destruct (is_correct q); simpl List.length; lia.
Qed.

Lemma wrong_count_cons (q : Query) (qs : list Query) :
  wrong_count (q :: qs) = (if is_correct q then 0 else 1) + wrong_count qs.
Proof.
  unfold wrong_count. simpl. destruct (is_correct q); simpl List.length; lia.
Qed.

(** Every query is counted once, as correct or as wrong. *)
Lemma correct_wrong_total (qs : list Query) :
  correct_count qs + wrong_count qs = Z.of_nat (List.length qs).
Proof.
  induction qs as [| q qs IH]; [reflexivity |].
  rewrite correct_count_cons, wrong_count_cons. simpl List.length.
  destruct (is_correct q); lia.
Qed.

Lemma correct_count_nonneg (qs : list Query) : 0 <= correct_count qs.
Proof. unfold correct_count. lia. Qed.

Lemma wrong_count_nonneg (qs : list Query) : 0 <= wrong_count qs.
Proof. unfold wrong_count. lia. Qed.

(** What an iteration that completes has done. *)
Lemma SearchData_row_returns (i : Z) (record : list string) (c wr : Z)
  (w w' : World) (c' wr' : Z) :
  SearchData_row i record c wr w = (w', Returns (c', wr')) ->
  exists label pixelValues e embedding f d,
    record = label :: pixelValues /\
    Strconv.Atoi label = inr e /\
    embedding_loop pixelValues [] = inr embedding /\
    searchVectorInRedis (redis w) embedding = (redis w', Returns (f, d)) /\
    files w' = files w /\
    stdout w' = (stdout w ++ [test_image_line i e f d])%list /\
    minDuration w' = Z.min (minDuration w) d /\
    maxDuration w' = Z.max (maxDuration w) d /\
    totalDuration w' = GoInt.add (totalDuration w) d /\
    c' = (if e =? f then GoInt.add c 1 else c) /\
    wr' = (if e =? f then wr else GoInt.add wr 1).
Proof.
  unfold SearchData_row.
  destruct record as [| label pixelValues]; [discriminate |].
  destruct (Strconv.Atoi label) as [err | e] eqn:Hl; [discriminate |].
  destruct (embedding_loop pixelValues []) as [err | embedding] eqn:Hemb;
    [discriminate |].
  destruct (searchVectorInRedis (redis w) embedding) as [conn [[f d] | err | p]] eqn:Hs;
    try discriminate.
  intros E. exists label, pixelValues, e, embedding, f, d.
  assert (Hmin : (if d <? minDuration (with_redis w conn) then d
                  else minDuration (with_redis w conn)) = Z.min (minDuration w) d).
  { simpl. destruct (Z.ltb_spec d (minDuration w)); lia. }
  assert (Hmax : (if d >? maxDuration (with_redis w conn) then d
                  else maxDuration (with_redis w conn)) = Z.max (maxDuration w) d).
  { simpl. destruct (Z.gtb_spec d (maxDuration w)); lia. }
  rewrite Hmin, Hmax in E.
  destruct (e =? f); injection E as <- <- <-; simpl; repeat split;
    solve [reflexivity | assumption].
Qed.

(** The counters, the files and the output after a loop that completes. *)
Lemma SearchData_loop_returns (records : list (list string)) :
  forall i c wr w w' c' wr',
    SearchData_loop i records c wr w = (w', Returns (c', wr')) ->
    GoInt.in_range c -> GoInt.in_range wr ->
    let qs := queries (redis w) records in
    List.length qs = List.length records /\
    files w' = files w /\
    stdout w' = (stdout w ++ query_lines i qs)%list /\
    c' = GoInt.wrap (c + correct_count qs) /\
    wr' = GoInt.wrap (wr + wrong_count qs).
Proof.
  induction records as [| record rest IH]; intros i c wr w w' c' wr' E Hc Hwr.
  - injection E as <- <- <-. cbn.
    rewrite app_nil_r, !Z.add_0_r, !wrap_small by assumption. auto.
  - cbn [SearchData_loop] in E.
    destruct (SearchData_row i record c wr w) as [w1 [[c1 wr1] | err | p]] eqn:Erow;
      try discriminate.
    apply SearchData_row_returns in Erow
      as (label & pixelValues & e & embedding & f & d & -> & Hl & Hemb & Hs
          & Hfiles & Hout & _ & _ & _ & -> & ->).
    apply IH in E as (Hlen & Hfiles' & Hout' & -> & ->).
    + cbn [queries]. rewrite Hl, Hemb, Hs. cbn zeta.
      cbn [List.length query_lines expected found latency].
      repeat split.
      * now rewrite Hlen.
      * congruence.
      * rewrite Hout', Hout, <- app_assoc. reflexivity.
      * rewrite correct_count_cons. unfold is_correct. simpl.
        destruct (e =? f); unfold GoInt.add.
        -- rewrite wrap_add_l. f_equal. lia.
        -- reflexivity.
      * rewrite wrong_count_cons. unfold is_correct. simpl.
        destruct (e =? f); unfold GoInt.add.
        -- reflexivity.
        -- rewrite wrap_add_l. f_equal. lia.
    + destruct (e =? f); [apply wrap_in_range | assumption].
    + destruct (e =? f); [assumption | apply wrap_in_range].
Qed.

(** The duration variables after a loop that completes. *)
Lemma SearchData_loop_durations (records : list (list string)) :
  forall i c wr w w' c' wr',
    SearchData_loop i records c wr w = (w', Returns (c', wr')) ->
    GoInt.in_range (totalDuration w) ->
    let ds := map latency (queries (redis w) records) in
    Forall (Z.le 0) ds /\
    minDuration w' = fold_left Z.min ds (minDuration w) /\
    maxDuration w' = fold_left Z.max ds (maxDuration w) /\
    totalDuration w' = GoInt.wrap (totalDuration w + fold_right Z.add 0 ds).
Proof.
  induction records as [| record rest IH]; intros i c wr w w' c' wr' E Ht.
  - injection E as <- <- <-. cbn.
    rewrite Z.add_0_r, wrap_small by assumption. auto.
  - cbn [SearchData_loop] in E.
    destruct (SearchData_row i record c wr w) as [w1 [[c1 wr1] | err | p]] eqn:Erow;
      try discriminate.
    apply SearchData_row_returns in Erow
      as (label & pixelValues & e & embedding & f & d & -> & Hl & Hemb & Hs
          & _ & _ & Hmin & Hmax & Htot & _ & _).
    apply IH in E as (Hpos & Hmin' & Hmax' & Htot');
      [| rewrite Htot; apply wrap_in_range].
    cbn [queries]. rewrite Hl, Hemb, Hs. cbn zeta.
    cbn [map fold_left fold_right latency].
    repeat split.
    + constructor; [eapply searchVectorInRedis_latency; eassumption | assumption].
    + now rewrite Hmin', Hmin.
    + now rewrite Hmax', Hmax.
    + rewrite Htot', Htot. unfold GoInt.add. rewrite wrap_add_l. f_equal. lia.
Qed.

End EvaluationFacts.

(** ** Running minimum and maximum *)

Section RunningExtrema.

Lemma fold_left_min_le (ds : list Z) :
  forall m, fold_left Z.min ds m <= m /\ Forall (Z.le (fold_left Z.min ds m)) ds.
Proof.
  induction ds as [| d ds IH]; intros m; simpl.
  - split; [lia | constructor].
  - destruct (IH (Z.min m d)) as [Hle Hall]. split; [lia |].
    constructor; [lia | assumption].
Qed.

Lemma fold_left_min_attained (ds : list Z) :
  forall m, fold_left Z.min ds m = m \/ In (fold_left Z.min ds m) ds.
Proof.
  induction ds as [| d ds IH]; intros m; simpl; [auto |].
  destruct (IH (Z.min m d)) as [E | Hin]; [| auto].
  rewrite E. destruct (Z.min_spec m d) as [[_ ->] | [_ ->]]; auto.
Qed.

Lemma fold_left_max_ge (ds : list Z) :
  forall m, m <= fold_left Z.max ds m /\
            Forall (fun d => d <= fold_left Z.max ds m) ds.
Proof.
  induction ds as [| d ds IH]; intros m; simpl.
  - split; [lia | constructor].
  - destruct (IH (Z.max m d)) as [Hle Hall]. split; [lia |].
    constructor; [lia | assumption].
Qed.

Lemma fold_left_max_attained (ds : list Z) :
  forall m, fold_left Z.max ds m = m \/ In (fold_left Z.max ds m) ds.
Proof.
  induction ds as [| d ds IH]; intros m; simpl; [auto |].
  destruct (IH (Z.max m d)) as [E | Hin]; [| auto].
  rewrite E. destruct (Z.max_spec m d) as [[_ ->] | [_ ->]]; auto.
Qed.

Lemma sum_nonneg (ds : list Z) : Forall (Z.le 0) ds -> 0 <= fold_right Z.add 0 ds.
Proof. induction 1; simpl; lia. Qed.

End RunningExtrema.

(** ** [SearchData] as a whole *)

Section SearchDataFacts.

Context {Conn : Type} `{Backend Conn}.

(** A call that returns [nil] has run its loop to the end, evaluated both
    quotients and printed the six summary lines. *)
Lemma SearchData_returns (w w' : World) (file records : list (list string)) :
  Open (files w) "mnist_test.csv" = inr file ->
  Csv.ReadAll file = inr records ->
  SearchData w = (w', Returns tt) ->
  exists w1 c wr acc avg,
    SearchData_loop 0 records 0 0 w = (w1, Returns (c, wr)) /\
    accuracy c wr = Some acc /\
    averageDuration (totalDuration w1) records = Some avg /\
    stdout w'
    = (stdout w1 ++ summary_lines c wr acc (minDuration w1) (maxDuration w1) avg)%list.
Proof.
  intros Hopen Hread. unfold SearchData. rewrite Hopen, Hread.
  destruct (SearchData_loop 0 records 0 0 w) as [w1 [[c wr] | err | p]];
    try discriminate.
  destruct (accuracy c wr) as [acc |] eqn:Hacc; [| discriminate].
  cbn [totalDuration Println].
  destruct (averageDuration (totalDuration w1) records) as [avg |] eqn:Havg;
    [| discriminate].
  intros [= <-]. exists w1, c, wr, acc, avg. repeat split; try assumption.
  cbn. rewrite <- !app_assoc. reflexivity.
Qed.

Lemma SearchData_loop_app (good rest : list (list string)) :
  forall i c wr w,
    SearchData_loop i (good ++ rest) c wr w =
    match SearchData_loop i good c wr w with
    | (w1, Returns (c1, wr1)) =>
        SearchData_loop (i + Z.of_nat (List.length good)) rest c1 wr1 w1
    | stopped => stopped
    end.
Proof.
  induction good as [| record good IH]; intros i c wr w.
  - cbn. now rewrite Z.add_0_r.
  - cbn [SearchData_loop app].
    destruct (SearchData_row i record c wr w) as [w1 [[c1 wr1] | err | p]];
      try reflexivity.
    rewrite IH. cbn [List.length]. rewrite Nat2Z.inj_succ.
    replace (i + 1 + Z.of_nat (List.length good))
      with (i + Z.succ (Z.of_nat (List.length good))) by lia.
    reflexivity.
Qed.

(** When every query completes, so does the loop. *)
Lemma SearchData_loop_completes (records : list (list string)) :
  forall i c wr w,
    List.length (queries (redis w) records) = List.length records ->
    exists w' c' wr', SearchData_loop i records c wr w = (w', Returns (c', wr')).
Proof.
  induction records as [| record rest IH]; intros i c wr w Hall.
  - cbn. eauto.
  - cbn [queries] in Hall. cbn [SearchData_loop]. unfold SearchData_row.
    destruct record as [| label pixelValues]; [discriminate |].
    destruct (Strconv.Atoi label) as [err | e]; [discriminate |].
    destruct (embedding_loop pixelValues []) as [err | embedding]; [discriminate |].
    destruct (searchVectorInRedis (redis w) embedding) as [conn [[f d] | err | p]];
      try discriminate.
    cbn [List.length] in Hall. injection Hall as Hall.
    destruct (e =? f); apply IH; exact Hall.
Qed.

Lemma wrap_add (a b : Z) :
  GoInt.wrap (GoInt.wrap a + GoInt.wrap b) = GoInt.wrap (a + b).
Proof.
  rewrite wrap_add_l, Z.add_comm, wrap_add_l. f_equal. lia.
Qed.

(** When every query completes and there is at least one, [SearchData]
    returns [nil]. *)
Lemma SearchData_completes (w : World) (file records : list (list string)) :
  Open (files w) "mnist_test.csv" = inr file ->
  Csv.ReadAll file = inr records ->
  records <> [] ->
  Z.of_nat (List.length records) <= GoInt.maxInt64 ->
  List.length (queries (redis w) records) = List.length records ->
  exists w', SearchData w = (w', Returns tt).
Proof.
  intros Hopen Hread Hne Hbound Hall.
  destruct (SearchData_loop_completes records 0 0 0 w Hall) as (w1 & c & wr & Hloop).
  unfold SearchData. rewrite Hopen, Hread, Hloop.
  apply SearchData_loop_returns in Hloop as (Hlen & _ & _ & -> & ->);
    [| int64_bounds ..].
  pose proof (correct_wrong_total (queries (redis w) records)) as Htotal.
  assert (Hpos : 0 < Z.of_nat (List.length records))
    by (destruct records; [contradiction | cbn [List.length]; lia]).
  unfold accuracy, averageDuration, GoInt.quo, GoInt.add.
  rewrite !Z.add_0_l, wrap_add, (Z.add_comm (wrong_count _)), Htotal, Hlen.
  rewrite wrap_small by int64_bounds.
  destruct (Z.eqb_spec (Z.of_nat (List.length records)) 0) as [E | _]; [lia |].
  cbn [Println totalDuration]. eauto.
Qed.

End SearchDataFacts.

(** ** The CSV reader *)

Section CsvFacts.

Lemma ReadAll_returns (f : Csv.file) (records : list (list string)) :
  Csv.ReadAll f = inr records -> records = f.
Proof.
  unfold Csv.ReadAll. destruct f as [| first rest]; [now intros [= <-] |].
  destruct (Csv.check_fields _ _ _); [discriminate | now intros [= <-]].
Qed.

Lemma check_fields_mismatch (n : nat) (rows : Csv.file) (row : list string) :
  forall line, In row rows -> List.length row <> n ->
               exists line', Csv.check_fields n line rows = Some (ErrFieldCount line').
Proof.
  induction rows as [| r rows IH]; intros line Hin Hlen; [contradiction |].
  simpl. destruct (Nat.eqb_spec (List.length r) n) as [E | E]; [| eauto].
  destruct Hin as [-> | Hin]; [contradiction |]. eauto.
Qed.

(** A record with another number of fields than the first makes the read
    fail. *)
Lemma ReadAll_field_count (first : list string) (rest : Csv.file)
  (row : list string) :
  In row rest -> List.length row <> List.length first ->
  exists line, Csv.ReadAll (first :: rest) = inl (ErrFieldCount line).
Proof.
  intros Hin Hlen. unfold Csv.ReadAll.
  destruct (check_fields_mismatch _ rest row 2 Hin Hlen) as (line & ->). eauto.
Qed.

End CsvFacts.

(** ** The ingestion loop *)

Section IngestionFacts.

Context {Conn : Type} `{Backend Conn}.

(** The inner loop fails at the first field [Atoi] rejects and otherwise
    appends one string per pixel. *)
Lemma pixelStrings_loop_spec (pixelValues : list string) :
  forall acc,
    match first_bad_field pixelValues with
    | Some err => pixelStrings_loop pixelValues acc = inl err
    | None =>
        exists ps, pixelStrings_loop pixelValues acc = inr (acc ++ ps)%list /\
                   List.length ps = List.length pixelValues
    end.
Proof.
  induction pixelValues as [| pixel rest IH]; intros acc; simpl.
  - exists []. now rewrite app_nil_r.
  - destruct (Strconv.Atoi pixel) as [err | pixelInt]; [reflexivity |].
    specialize (IH (acc ++ [pixelString pixelInt])%list).
    destruct (first_bad_field rest); [exact IH |].
    destruct IH as (ps & -> & Hlen).
    exists (pixelString pixelInt :: ps). rewrite <- app_assoc. simpl. auto.
Qed.

Lemma embedding_loop_spec (pixelValues : list string) :
  forall acc,
    match first_bad_field pixelValues with
    | Some err => embedding_loop pixelValues acc = inl err
    | None =>
        exists es, embedding_loop pixelValues acc = inr (acc ++ es)%list /\
                   List.length es = List.length pixelValues
    end.
Proof.
  induction pixelValues as [| pixel rest IH]; intros acc; simpl.
  - exists []. now rewrite app_nil_r.
  - destruct (Strconv.Atoi pixel) as [err | pixelInt]; [reflexivity |].
    specialize (IH (acc ++ [pixelFloat pixelInt])%list).
    destruct (first_bad_field rest); [exact IH |].
    destruct IH as (es & -> & Hlen).
    exists (pixelFloat pixelInt :: es). rewrite <- app_assoc. simpl. auto.
Qed.

(** A record with a field [Atoi] rejects stops the iteration before any
    command is sent. *)
Lemma StoreData_row_bad_field (i : Z) (record : list string) (w : World)
  (err : error) :
  first_bad_field record = Some err -> StoreData_row i record w = (w, Fails err).
Proof.
  destruct record as [| label pixelValues]; [discriminate |].
  unfold StoreData_row. simpl.
  destruct (Strconv.Atoi label) as [e | result]; [now intros [= ->] |].
  intros Hbad. pose proof (pixelStrings_loop_spec pixelValues []) as Hspec.
  rewrite Hbad in Hspec. now rewrite Hspec.
Qed.

(** A record of numeric fields is sent to the server whatever the number
    of its fields; the iteration succeeds or fails as the command does. *)
Lemma StoreData_row_numeric (i : Z) (label : string) (pixelValues : list string)
  (result : Z) (w : World) :
  Strconv.Atoi label = inr result ->
  first_bad_field pixelValues = None ->
  exists pixelStrings,
    pixelStrings_loop pixelValues [] = inr pixelStrings /\
    List.length pixelStrings = List.length pixelValues /\
    StoreData_row i (label :: pixelValues) w
    = (let '(conn, resp) :=
         Do (redis w)
            [AStr "JSON.SET"; AStr (key i result); AStr "$";
             AStr (jsonData result (Strings.Join pixelStrings ","))] in
       match reply resp with
       | inl err => (with_redis w conn, Fails err)
       | inr _ =>
           (Println (with_redis w conn) ("Stored JSON for " ++ key i result),
            Returns tt)
       end).
Proof.
  intros Hl Hok. pose proof (pixelStrings_loop_spec pixelValues []) as Hspec.
  rewrite Hok in Hspec. destruct Hspec as (ps & Hps & Hlen).
  exists ps. repeat split; try assumption.
  unfold StoreData_row. rewrite Hl, Hps. reflexivity.
Qed.

Lemma StoreData_loop_app (good rest : list (list string)) :
  forall i w,
    StoreData_loop i (good ++ rest) w =
    match StoreData_loop i good w with
    | (w1, Returns _) => StoreData_loop (i + Z.of_nat (List.length good)) rest w1
    | stopped => stopped
    end.
Proof.
  induction good as [| record good IH]; intros i w.
  - cbn. now rewrite Z.add_0_r.
  - cbn [StoreData_loop app].
    destruct (StoreData_row i record w) as [w1 [[] | err | p]]; try reflexivity.
    rewrite IH. cbn [List.length]. rewrite Nat2Z.inj_succ.
    replace (i + 1 + Z.of_nat (List.length good))
      with (i + Z.succ (Z.of_nat (List.length good))) by lia.
    reflexivity.
Qed.

(** C3 (as amended).  [StoreData] never skips a malformed row.  A row whose
    number of fields differs from that of the first row makes reading the
    CSV file fail, and nothing is stored.  A row with a field that
    [strconv.Atoi] rejects makes [StoreData] return the conversion error of
    the first such field; neither that row nor a later one is stored, and
    the world is left as the ingestion of the rows before it made it: their
    documents stay in the store. *)
Theorem ingestion_stops_at_first_bad_row (w : World) (file : Csv.file) :
  Open (files w) "mnist_train.csv" = inr file ->
  (forall first rest row,
      file = first :: rest -> In row rest ->
      List.length row <> List.length first ->
      exists line, StoreData w = (w, Fails (ErrFieldCount line))) /\
  (forall good bad rest w1 err,
      Csv.ReadAll file = inr (good ++ bad :: rest)%list ->
      StoreData_loop 0 good w = (w1, Returns tt) ->
      first_bad_field bad = Some err ->
      StoreData w = (w1, Fails err)).
Proof.
  intros Hopen. split.
  - intros first rest row -> Hin Hlen.
    destruct (ReadAll_field_count first rest row Hin Hlen) as (line & Hread).
    exists line. unfold StoreData. now rewrite Hopen, Hread.
  - intros good bad rest w1 err Hread Hgood Hbad.
    unfold StoreData. rewrite Hopen, Hread, StoreData_loop_app, Hgood.
    cbn [StoreData_loop]. now rewrite StoreData_row_bad_field with (err := err).
Qed.

End IngestionFacts.

(** ** Ingestion into the key-value backend *)

Section KeyValueFacts.

Lemma StoreData_row_KeyValue (i : Z) (record : list string) (w w' : KVWorld) :
  StoreData_row i record w = (w', Returns tt) ->
  exists label pixelValues result pixelStrings,
    record = label :: pixelValues /\
    Strconv.Atoi label = inr result /\
    pixelStrings_loop pixelValues [] = inr pixelStrings /\
    redis w'
    = <[key i result := jsonData result (Strings.Join pixelStrings ",")]> (redis w).
Proof.
  unfold StoreData_row.
  destruct record as [| label pixelValues]; [discriminate |].
  destruct (Strconv.Atoi label) as [err | result] eqn:Hl; [discriminate |].
  destruct (pixelStrings_loop pixelValues []) as [err | ps] eqn:Hps; [discriminate |].
  cbn. intros [= <-]. exists label, pixelValues, result, ps. auto.
Qed.

(** Keys of rows before index [i] are not written by the loop from [i]. *)
Lemma StoreData_loop_frame (records : list (list string)) :
  forall i (w w' : KVWorld) k,
    StoreData_loop i records w = (w', Returns tt) ->
    (forall j r, i <= j -> k <> key j r) ->
    redis w' !! k = redis w !! k.
Proof.
  induction records as [| record rest IH]; intros i w w' k E Hk.
  - now injection E as <-.
  - cbn [StoreData_loop] in E.
    destruct (StoreData_row i record w) as [w1 [[] | err | p]] eqn:Erow;
      try discriminate.
    apply StoreData_row_KeyValue in Erow as (label & pvs & result & ps & _ & _ & _ & Hw1).
    rewrite (IH (i + 1) w1 w' k E) by (intros j r Hj; apply Hk; lia).
    rewrite Hw1. apply lookup_insert_ne. apply not_eq_sym, Hk. lia.
Qed.

(** The [n]-th record is found under the key made of its index and label. *)
Lemma StoreData_loop_lookup (records : list (list string)) :
  forall i (w w' : KVWorld) (n : nat) record,
    StoreData_loop i records w = (w', Returns tt) ->
    records !! n = Some record ->
    exists label pixelValues result pixelStrings,
      record = label :: pixelValues /\
      Strconv.Atoi label = inr result /\
      pixelStrings_loop pixelValues [] = inr pixelStrings /\
      redis w' !! key (i + Z.of_nat n) result
      = Some (jsonData result (Strings.Join pixelStrings ",")).
Proof.
  induction records as [| r rest IH]; intros i w w' n record E Hn; [discriminate |].
  cbn [StoreData_loop] in E.
  destruct (StoreData_row i r w) as [w1 [[] | err | p]] eqn:Erow; try discriminate.
  destruct n as [| n].
  - injection Hn as ->.
    apply StoreData_row_KeyValue in Erow as (label & pvs & result & ps & -> & Hl & Hps & Hw1).
    exists label, pvs, result, ps. repeat split; try assumption.
    rewrite Z.add_0_r, (StoreData_loop_frame rest (i + 1) w1 w' _ E).
    + rewrite Hw1. apply lookup_insert_eq.
    + intros j r Hj Hkey. apply key_inj in Hkey. lia.
  - destruct (IH (i + 1) w1 w' n record E Hn) as (label & pvs & result & ps & ? & ? & ? & Hlk).
    exists label, pvs, result, ps. repeat split; try assumption.
    rewrite <- Hlk. f_equal. f_equal. lia.
Qed.

(** Every iteration adds a document: no key is written twice. *)
Lemma StoreData_loop_size (records : list (list string)) :
  forall i (w w' : KVWorld),
    StoreData_loop i records w = (w', Returns tt) ->
    (forall k, is_Some (redis w !! k) -> exists j r, j < i /\ k = key j r) ->
    size (redis w') = (size (redis w) + List.length records)%nat /\
    (forall k, is_Some (redis w' !! k) ->
               exists j r, j < i + Z.of_nat (List.length records) /\ k = key j r).
Proof.
  induction records as [| record rest IH]; intros i w w' E Hinv.
  - injection E as <-. cbn [List.length]. split; [lia |].
    intros k Hk. destruct (Hinv k Hk) as (j & r & ? & ?). exists j, r. split; [lia | assumption].
  - cbn [StoreData_loop] in E.
    destruct (StoreData_row i record w) as [w1 [[] | err | p]] eqn:Erow;
      try discriminate.
    apply StoreData_row_KeyValue in Erow as (label & pvs & result & ps & _ & _ & _ & Hw1).
    assert (Hfresh : redis w !! key i result = None).
    { destruct (redis w !! key i result) eqn:Hlk; [| reflexivity].
      destruct (Hinv (key i result)) as (j & r & Hj & Hkey); [rewrite Hlk; eauto |].
      apply key_inj in Hkey. lia. }
    destruct (IH (i + 1) w1 w' E) as [Hsize Hinv'].
    + intros k Hk. rewrite Hw1 in Hk.
      destruct (decide (key i result = k)) as [<- | Hne].
      * exists i, result. split; [lia | reflexivity].
      * rewrite lookup_insert_ne in Hk by assumption.
        destruct (Hinv k Hk) as (j & r & ? & ?). exists j, r. split; [lia | assumption].
    + split.
      * rewrite Hsize, Hw1, map_size_insert_None by assumption.
        cbn [List.length]. lia.
      * intros k Hk. destruct (Hinv' k Hk) as (j & r & ? & ?).
        exists j, r. split; [cbn [List.length]; lia | assumption].
Qed.

Lemma StoreData_returns (w w' : KVWorld) (file records : list (list string)) :
  Open (files w) "mnist_train.csv" = inr file ->
  Csv.ReadAll file = inr records ->
  StoreData w = (w', Returns tt) ->
  exists w1, StoreData_loop 0 records w = (w1, Returns tt) /\ redis w' = redis w1.
Proof.
  intros Hopen Hread. unfold StoreData. rewrite Hopen, Hread.
  destruct (StoreData_loop 0 records w) as [w1 [[] | err | p]]; try discriminate.
  intros [= <-]. exists w1. auto.
Qed.

(** What a successful ingestion into the key-value store has stored. *)
Lemma StoreData_keys
  (w w' : KVWorld) (file records : list (list string)) :
  Open (files w) "mnist_train.csv" = inr file ->
  Csv.ReadAll file = inr records ->
  StoreData w = (w', Returns tt) ->
  (forall (n : nat) record,
      records !! n = Some record ->
      exists label pixelValues result pixelStrings,
        record = label :: pixelValues /\
        Strconv.Atoi label = inr result /\
        pixelStrings_loop pixelValues [] = inr pixelStrings /\
        redis w' !! key (Z.of_nat n) result
        = Some (jsonData result (Strings.Join pixelStrings ","))) /\
  (forall i j r r', key i r = key j r' -> i = j /\ r = r') /\
  (redis w = empty -> size (redis w') = List.length records) /\
  (forall (Server : Type) (server : Backend Server) (rdb : Server)
          (embedding : list F32.t),
      exists blob,
        convertFloat32ArrayToBlob embedding = inr blob /\
        fst (searchVectorInRedis rdb embedding) = fst (Do rdb (searchQuery blob))).
Proof.
  intros Hopen Hread Hret.
  destruct (StoreData_returns w w' file records Hopen Hread Hret) as (w1 & Hloop & ->).
  split; [| split; [| split]].
  - intros n record Hn.
    destruct (StoreData_loop_lookup records 0 w w1 n record Hloop Hn)
      as (label & pvs & result & ps & ? & ? & ? & Hlk).
    exists label, pvs, result, ps. auto.
  - intros i j r r'. apply key_inj.
  - intros Hempty.
    destruct (StoreData_loop_size records 0 w w1 Hloop) as [Hsize _].
    + intros k [v Hk]. rewrite Hempty, lookup_empty in Hk. discriminate.
    + rewrite Hsize, Hempty, map_size_empty. reflexivity.
  - intros Server server rdb embedding.
    destruct (convertFloat32ArrayToBlob_ok embedding) as (blob & Hblob & _).
    exists blob. split; [exact Hblob |].
    unfold searchVectorInRedis. rewrite Hblob.
    destruct (Do rdb (searchQuery blob)) as [rdb' resp]. cbn [fst].
    destruct (reply resp) as [err | [| z | s | items]]; try reflexivity.
    destruct (Nat.eqb _ 0); [reflexivity |].
    destruct (items !! 1%nat) as [[| z | id | l] |]; try reflexivity.
    destruct (last _); [| reflexivity].
    destruct (Strconv.Atoi _); reflexivity.
Qed.

Lemma StoreData_loop_completes (records : list (list string)) :
  forall i (w : KVWorld),
    forallb well_formed records = true ->
    exists w', StoreData_loop i records w = (w', Returns tt).
Proof.
  induction records as [| record rest IH]; intros i w Hwf.
  - cbn. eauto.
  - cbn [forallb] in Hwf. apply andb_true_iff in Hwf as [Hrec Hrest].
    cbn [StoreData_loop]. unfold well_formed in Hrec.
    destruct record as [| label pixelValues]; [discriminate |].
    destruct (first_bad_field (label :: pixelValues)) eqn:Hbad; [discriminate |].
    cbn [first_bad_field] in Hbad.
    destruct (Strconv.Atoi label) as [err | result] eqn:Hl; [discriminate |].
    destruct (StoreData_row_numeric i label pixelValues result w Hl Hbad)
      as (ps & _ & _ & ->).
    cbn. apply IH. exact Hrest.
Qed.

Lemma StoreData_completes (w : KVWorld) (file records : list (list string)) :
  Open (files w) "mnist_train.csv" = inr file ->
  Csv.ReadAll file = inr records ->
  forallb well_formed records = true ->
  exists w', StoreData w = (w', Returns tt).
Proof.
  intros Hopen Hread Hwf.
  destruct (StoreData_loop_completes records 0 w Hwf) as (w1 & Hloop).
  unfold StoreData. rewrite Hopen, Hread, Hloop. eauto.
Qed.

(** C8.  An ingestion of well-formed rows into the key-value store
    succeeds, and the record of row [n] (rows are numbered from 0 in file
    order) is stored under the key [number:n:label].  A key determines the
    row index and the label, so no two rows share a key, and from an empty
    store the run leaves exactly one document per row.  The stored
    document is built from the label and the pixel strings alone, and the
    only command of a search is [FT.SEARCH] with the blob of the query
    embedding: the key is not part of what is compared. *)
Theorem keys_are_unique_and_sequential
  (w : KVWorld) (file records : list (list string)) :
  Open (files w) "mnist_train.csv" = inr file ->
  Csv.ReadAll file = inr records ->
  forallb well_formed records = true ->
  exists w',
    StoreData w = (w', Returns tt) /\
    (forall (n : nat) record,
        records !! n = Some record ->
        exists label pixelValues result pixelStrings,
          record = label :: pixelValues /\
          Strconv.Atoi label = inr result /\
          pixelStrings_loop pixelValues [] = inr pixelStrings /\
          redis w' !! key (Z.of_nat n) result
          = Some (jsonData result (Strings.Join pixelStrings ","))) /\
    (forall i j r r', key i r = key j r' -> i = j /\ r = r') /\
    (redis w = empty -> size (redis w') = List.length records) /\
    (forall (Server : Type) (server : Backend Server) (rdb : Server)
            (embedding : list F32.t),
        exists blob,
          convertFloat32ArrayToBlob embedding = inr blob /\
          fst (searchVectorInRedis rdb embedding) = fst (Do rdb (searchQuery blob))).
Proof.
  intros Hopen Hread Hwf.
  destruct (StoreData_completes w file records Hopen Hread Hwf) as (w' & Hret).
  exists w'. split; [exact Hret |].
  exact (StoreData_keys w w' file records Hopen Hread Hret).
Qed.

End KeyValueFacts.

(** ** Normalisation *)

Section NormalisationFacts.

Lemma intensities_complete (p : Z) : 0 <= p <= 255 -> In p intensities.
Proof.
  intros Hp. unfold intensities. apply in_map_iff. exists (Z.to_nat p).
  split; [lia | apply in_seq; lia].
Qed.

Lemma normalisation_check_all : forallb normalisation_check intensities = true.
Proof. vm_compute. reflexivity. Qed.

(** C1 (as amended).  For every raw intensity [p] in [0, 255] the value
    [SearchData] computes, [float32(p) / 255.0], is a valid binary32 number
    within half a unit in the last place of [p / 255], and is exactly zero
    for [p = 0], where [StoreData] writes ["0"].  The number [StoreData]
    writes is a numeral of six decimals within [5e-7] of the value
    [SearchData] computes: the stored value is the query value rounded to
    six decimals, and the two are equal exactly for [p = 0] and [p = 255]. *)
Theorem normalisation_rounds_stored_value (p : Z) :
  0 <= p <= 255 ->
  valid_binary F32.prec F32.emax (pixelFloat p) = true /\
  (Qabs (queryValue p - inject_Z p / 255) <= half_ulp (pixelFloat p))%Q /\
  (p = 0 -> pixelFloat p = S754_zero false /\ pixelString p = "0") /\
  exists s,
    storedValue p = Some s /\
    (exists k : Z, s == inject_Z k / 1000000)%Q /\
    (Qabs (s - queryValue p) <= 1 # 2000000)%Q /\
    ((s == queryValue p)%Q <-> p = 0 \/ p = 255).
Proof.
  intros Hp.
  pose proof (proj1 (forallb_forall _ _) normalisation_check_all p
                (intensities_complete p Hp)) as Hcheck.
  unfold normalisation_check in Hcheck.
  apply andb_true_iff in Hcheck as [Hcheck Hstored].
  apply andb_true_iff in Hcheck as [Hvalid Hnear].
  split; [exact Hvalid |].
  split; [now apply Qle_bool_iff |].
  split; [intros ->; split; reflexivity |].
  destruct (storedValue p) as [s |]; [| discriminate].
  apply andb_true_iff in Hstored as [Hstored Hiff].
  apply andb_true_iff in Hstored as [Hclose Hsix].
  exists s. split; [reflexivity |].
  split; [eexists; symmetry; apply Qeq_bool_iff; exact Hsix |].
  split; [now apply Qle_bool_iff |].
  apply eqb_prop in Hiff. rewrite <- Qeq_bool_iff, Hiff, orb_true_iff, !Z.eqb_eq.
  reflexivity.
Qed.

End NormalisationFacts.

Section Search.

Context {Conn : Type} `{Backend Conn}.

(** C2.  What [searchVectorInRedis] does when the reply to [FT.SEARCH] is
    an array of one item, which is the reply for an index without
    documents ([[0]]): the guard [len(items) == 0] lets it through and
    [items[1]] panics with an index out of range.  No error is returned. *)
Theorem search_without_hits_panics
  (rdb rdb' : Conn) (embedding : list F32.t) (blob : list Byte.byte)
  (resp : Response) (total : Reply) :
  convertFloat32ArrayToBlob embedding = inr blob ->
  Do rdb (searchQuery blob) = (rdb', resp) ->
  reply resp = inr (RArr [total]) ->
  searchVectorInRedis rdb embedding = (rdb', Panics (IndexOutOfRange 1 1)).
Proof.
  intros Hblob Hdo Hreply. unfold searchVectorInRedis.
  rewrite Hblob, Hdo, Hreply. reflexivity.
Qed.

(** C10.  For a row index [i >= 0] and a label [0 <= L <= maxInt64], the
    last [:]-separated part of the key [number:i:L] is the decimal
    rendering of [L], [strconv.Atoi] reads [L] back from it, and
    [searchVectorInRedis] returns [L] as the found label when the reply
    names that key. *)
Theorem label_round_trips_through_key
  (rdb rdb' : Conn) (embedding : list F32.t) (blob : list Byte.byte)
  (resp : Response) (total : Reply) (fields : list Reply) (i L : Z) :
  0 <= i -> 0 <= L <= GoInt.maxInt64 ->
  convertFloat32ArrayToBlob embedding = inr blob ->
  Do rdb (searchQuery blob) = (rdb', resp) ->
  reply resp = inr (RArr (total :: RStr (key i L) :: fields)) ->
  last (Strings.Split (key i L) ":") = Some (Strconv.Itoa L) /\
  Strconv.Atoi (Strconv.Itoa L) = inr L /\
  searchVectorInRedis rdb embedding
  = (rdb', Returns (L, Milliseconds (elapsed_ns resp))).
Proof.
  intros Hi HL Hblob Hdo Hreply.
  assert (GoInt.in_range L) as Hrange
      by int64_bounds.
  split; [apply last_Split_key |].
  split; [now apply Atoi_Itoa |].
  now apply searchVectorInRedis_key with (blob := blob) (first := total) (more := fields) (i := i).
Qed.

(** C5 (as amended).  Neither [searchVectorInRedis] nor [StoreData] compares
    a length with the dimension 784.  For a query of any length [n] the
    search sends a blob of [4 * n] bytes; an error of the backend is
    returned unchanged, and a reply with a hit is decoded to its label.
    For a row of any number of numeric pixel fields [StoreData] sends a
    document whose embedding has one entry per field, and the iteration
    succeeds or fails as the [JSON.SET] command does. *)
Theorem lengths_are_not_checked :
  (forall (rdb : Conn) (embedding : list F32.t),
      exists blob rdb' resp,
        convertFloat32ArrayToBlob embedding = inr blob /\
        List.length blob = (4 * List.length embedding)%nat /\
        Do rdb (searchQuery blob) = (rdb', resp) /\
        (forall err, reply resp = inl err ->
                     searchVectorInRedis rdb embedding = (rdb', Fails err)) /\
        (forall total i L fields,
            GoInt.in_range L ->
            reply resp = inr (hit total (key i L) fields) ->
            searchVectorInRedis rdb embedding
            = (rdb', Returns (L, Milliseconds (elapsed_ns resp))))) /\
  (forall (i : Z) (label : string) (pixelValues : list string) (result : Z)
          (w : World),
      Strconv.Atoi label = inr result ->
      first_bad_field pixelValues = None ->
      exists pixelStrings,
        pixelStrings_loop pixelValues [] = inr pixelStrings /\
        List.length pixelStrings = List.length pixelValues /\
        StoreData_row i (label :: pixelValues) w
        = (let '(conn, resp) :=
             Do (redis w)
                [AStr "JSON.SET"; AStr (key i result); AStr "$";
                 AStr (jsonData result (Strings.Join pixelStrings ","))] in
           match reply resp with
           | inl err => (with_redis w conn, Fails err)
           | inr _ =>
               (Println (with_redis w conn) ("Stored JSON for " ++ key i result),
                Returns tt)
           end)).
Proof.
  split.
  - intros rdb embedding.
    destruct (convertFloat32ArrayToBlob_ok embedding) as (blob & Hblob & Hlen).
    destruct (Do rdb (searchQuery blob)) as [rdb' resp] eqn:Hdo.
    exists blob, rdb', resp. repeat split; try assumption.
    + intros err Herr. eapply searchVectorInRedis_backend_error; eassumption.
    + intros total i L fields HL Hreply. unfold hit in Hreply.
      eapply searchVectorInRedis_key; eassumption.
  - intros i label pixelValues result w Hl Hok.
    now apply StoreData_row_numeric.
Qed.

End Search.

(** ** The evaluation report *)

Section Evaluation.

Context {Conn : Type} `{Backend Conn}.

(** The accuracy line of a run that returns. *)
Lemma SearchData_accuracy
  (w w' : World) (file records : list (list string)) :
  Open (files w) "mnist_test.csv" = inr file ->
  Csv.ReadAll file = inr records ->
  SearchData w = (w', Returns tt) ->
  100 * Z.of_nat (List.length records) <= GoInt.maxInt64 ->
  let qs := queries (redis w) records in
  let correct := correct_count qs in
  let wrong := wrong_count qs in
  List.length qs = List.length records /\
  0 < correct + wrong /\
  (exists mn mx avg,
      stdout w'
      = (stdout w ++ query_lines 0 qs
           ++ summary_lines correct wrong
                (Z.quot (100 * correct) (correct + wrong)) mn mx avg)%list) /\
  (correct = 9 -> wrong = 1 -> In "Accuracy = 90%" (stdout w')).
Proof.
  intros Hopen Hread Hret Hbound qs correct wrong.
  destruct (SearchData_returns w w' file records Hopen Hread Hret)
    as (w1 & c & wr & acc & avg & Hloop & Hacc & Havg & Hout).
  apply SearchData_loop_returns in Hloop as (Hlen & _ & Hout1 & Hc & Hwr);
    [| int64_bounds ..].
  fold qs in Hlen, Hout1, Hc, Hwr. fold correct in Hc. fold wrong in Hwr.
  pose proof (correct_wrong_total qs) as Htotal. fold correct wrong in Htotal.
  pose proof (correct_count_nonneg qs) as Hc0. fold correct in Hc0.
  pose proof (wrong_count_nonneg qs) as Hw0. fold wrong in Hw0.
  rewrite Hlen in Htotal. unfold GoInt.maxInt64 in Hbound.
  rewrite Z.add_0_l, wrap_small in Hc, Hwr
    by (int64_bounds).
  subst c wr.
  unfold accuracy, GoInt.quo, GoInt.mul, GoInt.add in Hacc.
  rewrite (wrap_small (wrong + correct)), (wrap_small (100 * correct)) in Hacc
    by (int64_bounds).
  destruct (Z.eqb_spec (wrong + correct) 0) as [| Hne]; [discriminate |].
  injection Hacc as <-.
  assert (Hq : 0 <= Z.quot (100 * correct) (wrong + correct) <= 100 * correct).
  { split; [apply Z.quot_pos; lia |].
    rewrite Z.quot_div_nonneg by lia. apply Z.div_le_upper_bound; nia. }
  rewrite wrap_small in Hout
    by (int64_bounds).
  rewrite Hout1, <- app_assoc, (Z.add_comm wrong correct) in Hout.
  repeat split.
  - exact Hlen.
  - lia.
  - eauto.
  - intros Ec Ew. rewrite Hout, Ec, Ew. rewrite !in_app_iff. right. right.
    right. right. left. reflexivity.
Qed.

(** C4.  When every query of a non-empty test file completes, [SearchData]
    returns, and the accuracy it prints is
    [100 * correct / (correct + wrong)] with the quotient truncated toward
    zero, where [correct] and [wrong] count the queries whose found label
    equals, respectively differs from, the expected one, and
    [correct + wrong] is the number of rows; nine correct and one wrong
    print [Accuracy = 90%].  (The bound on the number of rows keeps
    [100 * correct] within int64.) *)
Theorem accuracy_is_truncated_percentage
  (w : World) (file records : list (list string)) :
  Open (files w) "mnist_test.csv" = inr file ->
  Csv.ReadAll file = inr records ->
  records <> [] ->
  100 * Z.of_nat (List.length records) <= GoInt.maxInt64 ->
  let qs := queries (redis w) records in
  let correct := correct_count qs in
  let wrong := wrong_count qs in
  List.length qs = List.length records ->
  exists w',
    SearchData w = (w', Returns tt) /\
    correct + wrong = Z.of_nat (List.length records) /\
    (exists mn mx avg,
        stdout w'
        = (stdout w ++ query_lines 0 qs
             ++ summary_lines correct wrong
                  (Z.quot (100 * correct) (correct + wrong)) mn mx avg)%list) /\
    (correct = 9 -> wrong = 1 -> In "Accuracy = 90%" (stdout w')).
Proof.
  intros Hopen Hread Hne Hbound qs correct wrong Hall.
  destruct (SearchData_completes w file records Hopen Hread Hne) as (w' & Hret);
    [int64_bounds | exact Hall |].
  exists w'. split; [exact Hret |].
  destruct (SearchData_accuracy w w' file records Hopen Hread Hret Hbound)
    as (Hlen & _ & Hout & H90).
  split; [| split; [exact Hout | exact H90]].
  unfold correct, wrong. rewrite correct_wrong_total. f_equal. exact Hall.
Qed.

(** The latency lines of a run that returns. *)
Lemma SearchData_latencies
  (w w' : World) (file records : list (list string)) :
  Open (files w) "mnist_test.csv" = inr file ->
  Csv.ReadAll file = inr records ->
  SearchData (main_init w) = (w', Returns tt) ->
  let qs := queries (redis w) records in
  let ds := map latency qs in
  fold_right Z.add 0 ds <= GoInt.maxInt64 ->
  List.length ds = List.length records /\
  records <> [] /\
  exists correct wrong acc mn mx avg,
    stdout w'
    = (stdout w ++ query_lines 0 qs
         ++ summary_lines correct wrong acc mn mx avg)%list /\
    Forall (Z.le mn) ds /\
    (Exists (fun d => d <= 999999) ds -> In mn ds) /\
    (Forall (fun d => 999999 < d) ds -> mn = 999999) /\
    In mx ds /\ Forall (fun d => d <= mx) ds /\
    avg = Z.quot (fold_right Z.add 0 ds) (Z.of_nat (List.length ds)).
Proof.
  intros Hopen Hread Hret qs ds Hsum.
  destruct (SearchData_returns (main_init w) w' file records Hopen Hread Hret)
    as (w1 & c & wr & acc & avg & Hloop & _ & Havg & Hout).
  pose proof Hloop as Hdur.
  apply SearchData_loop_returns in Hloop as (Hlen & _ & Hout1 & _ & _);
    [| int64_bounds ..].
  apply SearchData_loop_durations in Hdur as (Hpos & Hmin & Hmax & Htot);
    [| unfold GoInt.in_range, GoInt.minInt64, GoInt.maxInt64; simpl; lia].
  cbn [main_init with_durations redis stdout minDuration maxDuration totalDuration]
    in Hlen, Hout1, Hpos, Hmin, Hmax, Htot.
  fold qs in Hlen, Hout1, Hpos, Hmin, Hmax, Htot. fold ds in Hpos, Hmin, Hmax, Htot.
  assert (Hlends : List.length ds = List.length records)
    by (unfold ds; now rewrite length_map).
  pose proof (sum_nonneg ds Hpos) as Hsum0.
  rewrite Z.add_0_l, wrap_small in Htot
    by int64_bounds.
  unfold averageDuration, GoInt.quo in Havg.
  destruct (Z.eqb_spec (Z.of_nat (List.length records)) 0) as [| Hne];
    [discriminate |].
  injection Havg as <-.
  assert (Hrec : records <> []) by (intros ->; apply Hne; reflexivity).
  split; [exact Hlends |]. split; [exact Hrec |].
  exists c, wr, acc, (minDuration w1), (maxDuration w1),
    (Z.quot (fold_right Z.add 0 ds) (Z.of_nat (List.length ds))).
  destruct (fold_left_min_le ds 999999) as [Hmle Hmall].
  destruct (fold_left_max_ge ds 0) as [Hxge Hxall].
  rewrite <- Hmin in Hmle, Hmall. rewrite <- Hmax in Hxge, Hxall.
  repeat split.
  - rewrite Hout, Hout1, <- app_assoc. do 3 f_equal.
    rewrite Htot, Hlends. apply wrap_small.
    unfold GoInt.in_range, GoInt.minInt64, GoInt.maxInt64 in *.
    assert (0 <= Z.quot (fold_right Z.add 0 ds) (Z.of_nat (List.length records))
            <= fold_right Z.add 0 ds); [| lia].
    split; [apply Z.quot_pos; lia |].
    rewrite Z.quot_div_nonneg by lia. apply Z.div_le_upper_bound; nia.
  - exact Hmall.
  - intros Hex. destruct (fold_left_min_attained ds 999999) as [E | Hin];
      rewrite <- Hmin in *; [| exact Hin].
    apply List.Exists_exists in Hex as (d & Hd & Hle).
    rewrite List.Forall_forall in Hmall. pose proof (Hmall d Hd).
    replace (minDuration w1) with d by lia. exact Hd.
  - intros Hall. destruct (fold_left_min_attained ds 999999) as [E | Hin];
      rewrite <- Hmin in *; [exact E |].
    rewrite List.Forall_forall in Hall. pose proof (Hall _ Hin). lia.
  - destruct (fold_left_max_attained ds 0) as [E | Hin];
      rewrite <- Hmax in *; [| exact Hin].
    destruct ds as [| d ds']; [simpl in Hlends; destruct records; [contradiction | discriminate] |].
    inversion Hpos; subst. inversion Hxall; subst.
    replace (maxDuration w1) with d by lia. now left.
  - exact Hxall.
Qed.

(** C6 (as amended).  For an evaluation run from the initial values [main]
    assigns, over a non-empty sequence of queries that all complete,
    [SearchData] returns; the printed maximum is the greatest per-query
    latency and the printed average is the total latency over the number
    of queries, truncated, all in whole milliseconds.  The printed minimum
    is a lower bound of the latencies; it is the least latency whenever
    some query took at most 999999 ms, the value [main] gives
    [minDuration], and it is 999999 when every query took longer.  (The
    bounds keep the number of rows and the total latency within int64.) *)
Theorem latency_summary
  (w : World) (file records : list (list string)) :
  Open (files w) "mnist_test.csv" = inr file ->
  Csv.ReadAll file = inr records ->
  records <> [] ->
  Z.of_nat (List.length records) <= GoInt.maxInt64 ->
  let qs := queries (redis w) records in
  let ds := map latency qs in
  List.length qs = List.length records ->
  total_latency qs <= GoInt.maxInt64 ->
  exists w' correct wrong acc mn mx avg,
    SearchData (main_init w) = (w', Returns tt) /\
    stdout w'
    = (stdout w ++ query_lines 0 qs
         ++ summary_lines correct wrong acc mn mx avg)%list /\
    Forall (Z.le mn) ds /\
    (Exists (fun d => d <= 999999) ds -> In mn ds) /\
    (Forall (fun d => 999999 < d) ds -> mn = 999999) /\
    In mx ds /\ Forall (fun d => d <= mx) ds /\
    avg = Z.quot (total_latency qs) (Z.of_nat (List.length qs)).
Proof.
  intros Hopen Hread Hne Hbound qs ds Hall Hsum.
  destruct (SearchData_completes (main_init w) file records Hopen Hread Hne Hbound Hall)
    as (w' & Hret).
  destruct (SearchData_latencies w w' file records Hopen Hread Hret Hsum)
    as (_ & _ & correct & wrong & acc & mn & mx & avg & Hrest).
  exists w', correct, wrong, acc, mn, mx, avg. split; [exact Hret |].
  unfold total_latency. fold ds.
  replace (List.length qs) with (List.length ds)
    by (unfold ds; apply length_map).
  exact Hrest.
Qed.

(** C7.  If the search of a query returns an error, after the queries
    before it have completed, [SearchData] returns that error.  Nothing is
    printed for the failed query and no summary is printed: the output is
    the lines of the earlier queries.  The counters hold the numbers of
    correct and wrong guesses among the earlier queries only. *)
Theorem search_failure_aborts_evaluation
  (w w1 : World) (file good rest : list (list string))
  (label : string) (pixelValues : list string) (e : Z)
  (embedding : list F32.t) (conn : Conn) (err : error) (c wr : Z) :
  Open (files w) "mnist_test.csv" = inr file ->
  Csv.ReadAll file = inr (good ++ (label :: pixelValues) :: rest)%list ->
  SearchData_loop 0 good 0 0 w = (w1, Returns (c, wr)) ->
  Strconv.Atoi label = inr e ->
  embedding_loop pixelValues [] = inr embedding ->
  searchVectorInRedis (redis w1) embedding = (conn, Fails err) ->
  let qs := queries (redis w) good in
  SearchData w = (with_redis w1 conn, Fails err) /\
  stdout (with_redis w1 conn) = (stdout w ++ query_lines 0 qs)%list /\
  List.length qs = List.length good /\
  c = GoInt.wrap (correct_count qs) /\
  wr = GoInt.wrap (wrong_count qs).
Proof.
  intros Hopen Hread Hgood Hl Hemb Hs qs.
  split.
  - unfold SearchData. rewrite Hopen, Hread, SearchData_loop_app, Hgood.
    cbn [SearchData_loop SearchData_row]. rewrite Hl, Hemb, Hs. reflexivity.
  - apply SearchData_loop_returns in Hgood as (Hlen & _ & Hout & Hc & Hwr);
      [| int64_bounds ..].
    auto.
Qed.

(** C9.  With a test file of zero rows [SearchData] prints the two counts
    and then panics with an integer division by zero: the divisor
    [wrongGuess+correctGuess] of the accuracy is zero.  The divisor
    [int64(len(records))] of the average is zero as well; neither
    division is guarded. *)
Theorem empty_evaluation_divides_by_zero (w : World) :
  Open (files w) "mnist_test.csv" = inr [] ->
  SearchData w
  = (Println (Println w "Number of Correct guess = 0") "Number of Wrong guess = 0",
     Panics DivideByZero) /\
  accuracy 0 0 = None /\
  averageDuration (totalDuration w) [] = None.
Proof.
  intros Hopen. unfold SearchData. rewrite Hopen. repeat split.
Qed.

End Evaluation.

(** ** The theorems on sample runs *)

(** C1 at the intensity 128: the stored numeral [0.501961] is within
    [5e-7] of the query value. *)
Lemma normalisation_rounds_stored_value_witness :
  exists s, storedValue 128 = Some s /\
            (Qabs (s - queryValue 128) <= 1 # 2000000)%Q.
Proof.
  destruct (normalisation_rounds_stored_value 128)
    as (_ & _ & _ & s & Hs & _ & Hclose & _).
  - lia.
  - exists s. split; [exact Hs | exact Hclose].
Defined.

(** C1 as the specification states it fails at the intensity 1: the stored
    numeral is [0.003922], the query value is [8421505 / 2^31], and they
    are further apart than half a unit in the last place of the query
    value, so rounding the numeral to binary32 does not give the query
    value back either. *)
Lemma stored_value_differs_counterexample :
  exists s, storedValue 1 = Some s /\
            ~ (s == queryValue 1)%Q /\
            (half_ulp (pixelFloat 1) < Qabs (s - queryValue 1))%Q.
Proof.
  eexists. split; [vm_compute; reflexivity |]. split.
  - intros E. vm_compute in E. discriminate.
  - vm_compute. reflexivity.
Qed.

(** C2 on a query of 784 zeros against an index without documents. *)
Lemma search_without_hits_panics_witness :
  searchVectorInRedis [no_hits] (List.repeat (pixelFloat 0) 784)
  = ([], Panics (IndexOutOfRange 1 1)).
Proof.
  destruct (convertFloat32ArrayToBlob (List.repeat (pixelFloat 0) 784))
    as [err | blob] eqn:Hblob; [vm_compute in Hblob; discriminate |].
  apply (search_without_hits_panics [no_hits] [] _ blob no_hits (RInt 0) Hblob);
    reflexivity.
Defined.

(** C3 on three rows whose second has the label [x]: the run ends with
    the conversion error for [x], in the world the first row left. *)
Lemma ingestion_stops_at_first_bad_row_witness :
  let w : KVWorld := world empty rows_with_bad_label [] in
  StoreData w
  = (fst (StoreData_loop 0 [["5"; "0"; "255"]] w),
     Fails (NumError "Atoi" "x" ErrSyntax)).
Proof.
  intros w.
  apply (proj2 (ingestion_stops_at_first_bad_row w rows_with_bad_label eq_refl)
           [["5"; "0"; "255"]] ["x"; "0"; "0"] [["3"; "1"; "2"]]).
  - reflexivity.
  - vm_compute. reflexivity.
  - reflexivity.
Defined.

(** C3 as the specification states it fails on the same rows: the store was
    empty before the run and holds the document of the first row after the
    run has failed. *)
Lemma partial_ingestion_counterexample :
  let w : KVWorld := world empty rows_with_bad_label [] in
  exists w' err,
    StoreData w = (w', Fails err) /\
    redis w = empty /\
    redis w' <> redis w /\
    redis w' !! "number:0:5" = Some (jsonData 5 "0,1.000000").
Proof.
  intros w. eexists _, _. split; [vm_compute; reflexivity |].
  split; [reflexivity |]. split.
  - intros E. apply (f_equal (fun m => m !! "number:0:5")) in E.
    vm_compute in E. discriminate.
  - vm_compute. reflexivity.
Qed.

(** C4 on ten queries of which nine are answered with the expected label. *)
Lemma accuracy_is_truncated_percentage_witness :
  exists w',
    SearchData (main_init (world ten_answers [] ten_rows)) = (w', Returns tt) /\
    In "Accuracy = 90%" (stdout w').
Proof.
  destruct (accuracy_is_truncated_percentage
              (main_init (world ten_answers [] ten_rows)) ten_rows ten_rows)
    as (w' & Hret & _ & _ & H90).
  - reflexivity.
  - reflexivity.
  - discriminate.
  - vm_compute. discriminate.
  - vm_compute. reflexivity.
  - exists w'. split; [exact Hret |].
    apply H90; vm_compute; reflexivity.
Defined.

(** C5 on vectors of two components: the row is stored with an embedding
    of two entries, and a search with a query of two floats returns the
    label of the hit the server answers with. *)
Lemma lengths_are_not_checked_witness :
  (let w : KVWorld := world empty [] [] in
   StoreData_row 0 ["5"; "0"; "255"] w
   = (Println (with_redis w (<["number:0:5" := jsonData 5 "0,1.000000"]> empty))
        "Stored JSON for number:0:5",
      Returns tt)) /\
  searchVectorInRedis [found_in 30 0 7] [pixelFloat 0; pixelFloat 255]
  = ([], Returns (7, 30)).
Proof.
  split.
  - intros w.
    destruct (proj2 lengths_are_not_checked 0 "5" ["0"; "255"] 5 w)
      as (pixelStrings & Hps & _ & Hrow).
    + reflexivity.
    + reflexivity.
    + rewrite Hrow. injection Hps as <-. reflexivity.
  - destruct (proj1 lengths_are_not_checked
                [found_in 30 0 7] [pixelFloat 0; pixelFloat 255])
      as (blob & rdb' & resp & _ & _ & Hdo & _ & Hhit).
    injection Hdo as <- <-.
    apply (Hhit 1 0 7 [RStr "dist"; RStr "0"]); [int64_bounds | reflexivity].
Defined.

(** C5 as the specification states it fails on a training file whose only
    row has two pixels: [StoreData] returns [nil] and the document, with an
    embedding of two entries, is in the store. *)
Lemma wrong_length_accepted_counterexample :
  let w : KVWorld := world empty [["5"; "0"; "255"]] [] in
  exists w',
    StoreData w = (w', Returns tt) /\
    redis w' !! "number:0:5" = Some (jsonData 5 "0,1.000000").
Proof.
  intros w. eexists. split; vm_compute; reflexivity.
Qed.

(** C6 on two queries of 30 ms and 81 ms. *)
Lemma latency_summary_witness :
  let w := world [found_in 30 3 7; found_in 81 9 2] [] [["7"; "0"]; ["1"; "255"]] in
  exists w' mn mx avg,
    SearchData (main_init w) = (w', Returns tt) /\
    Forall (Z.le mn) [30; 81] /\ In mn [30; 81] /\
    In mx [30; 81] /\ Forall (fun d => d <= mx) [30; 81] /\
    avg = 55.
Proof.
  intros w.
  destruct (latency_summary w [["7"; "0"]; ["1"; "255"]] [["7"; "0"]; ["1"; "255"]])
    as (w' & correct & wrong & acc & mn & mx & avg
        & Hret & _ & Hlow & Hmin & _ & Hmax & Hhigh & Havg).
  - reflexivity.
  - reflexivity.
  - discriminate.
  - vm_compute. discriminate.
  - vm_compute. reflexivity.
  - vm_compute. discriminate.
  - exists w', mn, mx, avg. repeat split.
    + exact Hret.
    + exact Hlow.
    + apply Hmin. left. vm_compute. discriminate.
    + exact Hmax.
    + exact Hhigh.
    + exact Havg.
Defined.

(** C6 as the specification states it fails on a single query that takes
    1000000 ms: the run completes and the fifth line of the summary
    reports a minimum of 999999 ms. *)
Lemma minimum_is_capped_counterexample :
  let w := world [found_in 1000000 0 7] [] [["7"; "0"]] in
  map latency (queries (redis w) [["7"; "0"]]) = [1000000] /\
  snd (SearchData (main_init w)) = Returns tt /\
  stdout (fst (SearchData (main_init w)))
  = ["Test image 0: expected = 7, found = 7 in 1000000ms";
     "Number of Correct guess = 1";
     "Number of Wrong guess = 0";
     "Accuracy = 100%";
     "Redis Vector Search Min Duration = 999999ms";
     "Redis Vector Search Max Duration = 1000000ms";
     "Redis Vector Search Average Duration = 1000000ms"].
Proof.
  intros w. repeat split; vm_compute; reflexivity.
Qed.

(** C7 on three queries whose second search times out. *)
Lemma search_failure_aborts_evaluation_witness :
  let w := main_init
             (world [found_in 30 3 7;
                     {| elapsed_ns := 5; reply := inl (BackendError "i/o timeout") |}]
                    [] [["7"; "0"]; ["1"; "255"]; ["4"; "9"]]) in
  snd (SearchData w) = Fails (BackendError "i/o timeout") /\
  stdout (fst (SearchData w)) = ["Test image 0: expected = 7, found = 7 in 30ms"].
Proof.
  intros w.
  destruct (search_failure_aborts_evaluation w
              (fst (SearchData_loop 0 [["7"; "0"]] 0 0 w))
              [["7"; "0"]; ["1"; "255"]; ["4"; "9"]]
              [["7"; "0"]] [["4"; "9"]] "1" ["255"] 1 [pixelFloat 255] []
              (BackendError "i/o timeout") 1 0)
    as (Hrun & Hout & _).
  - reflexivity.
  - reflexivity.
  - vm_compute. reflexivity.
  - reflexivity.
  - reflexivity.
  - vm_compute. reflexivity.
  - rewrite Hrun. split; [reflexivity |]. cbn [fst]. rewrite Hout.
    vm_compute. reflexivity.
Defined.

(** C8 on two equal rows: they get the keys [number:0:5] and [number:1:5],
    and the store holds two documents. *)
Lemma keys_are_unique_and_sequential_witness :
  let w : KVWorld := world empty [["5"; "0"; "255"]; ["5"; "0"; "255"]] [] in
  exists w', StoreData w = (w', Returns tt) /\ size (redis w') = 2%nat.
Proof.
  intros w.
  destruct (keys_are_unique_and_sequential w
              [["5"; "0"; "255"]; ["5"; "0"; "255"]]
              [["5"; "0"; "255"]; ["5"; "0"; "255"]])
    as (w' & Hret & _ & _ & Hsize & _).
  - reflexivity.
  - reflexivity.
  - reflexivity.
  - exists w'. split; [exact Hret | apply Hsize; reflexivity].
Defined.

(** C9 on an empty test file. *)
Lemma empty_evaluation_divides_by_zero_witness :
  snd (SearchData (main_init (world ([] : list Response) [] [])))
  = Panics DivideByZero.
Proof.
  rewrite (proj1 (empty_evaluation_divides_by_zero
                    (main_init (world ([] : list Response) [] [])) eq_refl)).
  reflexivity.
Defined.

(** C10 on the key of row 59999 with label 8. *)
Lemma label_round_trips_through_key_witness :
  searchVectorInRedis [found_in 29 59999 8] [pixelFloat 0; pixelFloat 255]
  = ([], Returns (8, 29)).
Proof.
  destruct (convertFloat32ArrayToBlob [pixelFloat 0; pixelFloat 255])
    as [err | blob] eqn:Hblob; [vm_compute in Hblob; discriminate |].
  refine (proj2 (proj2
            (label_round_trips_through_key
               [found_in 29 59999 8] [] _ blob (found_in 29 59999 8) (RInt 1)
               [RArr [RStr "dist"; RStr "0"]] 59999 8 _ _ Hblob _ _))).
  - lia.
  - int64_bounds.
  - reflexivity.
  - reflexivity.
Defined.

(* ===================================================================== *)
(** * Further properties of the program *)
(* ===================================================================== *)

(** ** The blob layout *)

Section BlobFacts.

Lemma digits2_pos_size (p : positive) : digits2_pos p = Pos.size p.
Proof. induction p as [p IH | p IH |]; simpl; now rewrite ?IH. Qed.

(** The mantissa and exponent of a valid finite [float32]: normal, or
    subnormal with the least exponent. *)
Lemma valid_finite_bounds (s : bool) (m : positive) (e : Z) :
  valid_binary F32.prec F32.emax (S754_finite s m e) = true ->
  (2 ^ 23 <= Zpos m < 2 ^ 24 /\ -149 <= e <= 104)
  \/ (Zpos m < 2 ^ 23 /\ e = -149).
Proof.
  unfold valid_binary, bounded, canonical_mantissa, fexp, emin, F32.prec, F32.emax.
  rewrite digits2_pos_size.
  intros [Hcanon Hmax]%andb_true_iff.
  apply Z.eqb_eq in Hcanon. apply Z.leb_le in Hmax.
  pose proof (Pos.size_gt m) as Hgt. pose proof (Pos.size_le m) as Hle.
  apply Pos2Z.pos_lt_pos in Hgt. apply Pos2Z.pos_le_pos in Hle.
  rewrite Pos2Z.inj_pow in Hgt, Hle. rewrite Pos2Z.inj_xO in Hle.
  destruct (Z.max_spec (Z.pos (Pos.size m) + e - 24) (3 - 128 - 24))
    as [[Hlt Hmaxeq] | [Hge Hmaxeq]]; rewrite Hmaxeq in Hcanon.
  - right. split; [| lia].
    assert (Z.pos (Pos.size m) <= 23) as Hsize by lia.
    eapply Z.lt_le_trans; [exact Hgt |].
    apply Z.pow_le_mono_r; lia.
  - left. assert (Z.pos (Pos.size m) = 24) as Hsize by lia.
    rewrite Hsize in Hgt, Hle. change (2 ^ 24) with (2 * 2 ^ 23) in Hle. lia.
Qed.

Lemma bits_range (x : F32.t) :
  valid_binary F32.prec F32.emax x = true -> 0 <= F32.bits x < 2 ^ 32.
Proof.
  destruct x as [s | s | | s m e]; intros Hvalid; try (destruct s; cbn; lia).
  - cbn. lia.
  - apply valid_finite_bounds in Hvalid. unfold F32.bits.
    destruct Hvalid as [[Hm He] | [Hm ->]].
    + destruct (Z.ltb_spec (Z.pos m) (2 ^ 23)); [lia |]. destruct s; lia.
    + destruct (Z.ltb_spec (Z.pos m) (2 ^ 23)); [| lia]. destruct s; lia.
Qed.

(** Reading the bits of a valid [float32] gives the value back. *)
Lemma Float32frombits_bits (x : F32.t) :
  valid_binary F32.prec F32.emax x = true -> Float32frombits (F32.bits x) = x.
Proof.
  destruct x as [s | s | | s m e]; intros Hvalid; try (destruct s; reflexivity).
  - reflexivity.
  - apply valid_finite_bounds in Hvalid. unfold F32.bits, Float32frombits.
    destruct Hvalid as [[Hm He] | [Hm ->]].
    + destruct (Z.ltb_spec (Z.pos m) (2 ^ 23)); [lia |].
      set (sign := if s then 2 ^ 31 else 0).
      assert (Hsign : sign = 2 ^ 31 * Z.b2z s) by (destruct s; reflexivity).
      assert (Hfrac : (sign + (e + 150) * 2 ^ 23 + (Z.pos m - 2 ^ 23)) mod 2 ^ 23
                      = Z.pos m - 2 ^ 23).
      { rewrite Hsign. change (2 ^ 31) with (2 ^ 8 * 2 ^ 23).
        replace (2 ^ 8 * 2 ^ 23 * Z.b2z s + (e + 150) * 2 ^ 23 + (Z.pos m - 2 ^ 23))
          with (Z.pos m - 2 ^ 23 + (2 ^ 8 * Z.b2z s + (e + 150)) * 2 ^ 23) by lia.
        rewrite Z.mod_add by lia. apply Z.mod_small. lia. }
      assert (Hquot : (sign + (e + 150) * 2 ^ 23 + (Z.pos m - 2 ^ 23)) / 2 ^ 23
                      = 2 ^ 8 * Z.b2z s + (e + 150)).
      { rewrite Hsign. change (2 ^ 31) with (2 ^ 8 * 2 ^ 23).
        replace (2 ^ 8 * 2 ^ 23 * Z.b2z s + (e + 150) * 2 ^ 23 + (Z.pos m - 2 ^ 23))
          with (Z.pos m - 2 ^ 23 + (2 ^ 8 * Z.b2z s + (e + 150)) * 2 ^ 23) by lia.
        rewrite Z.div_add by lia. rewrite Z.div_small by lia. lia. }
      assert (Htop : (sign + (e + 150) * 2 ^ 23 + (Z.pos m - 2 ^ 23)) / 2 ^ 31
                     = Z.b2z s).
      { rewrite Hsign.
        replace (2 ^ 31 * Z.b2z s + (e + 150) * 2 ^ 23 + (Z.pos m - 2 ^ 23))
          with ((e + 150) * 2 ^ 23 + (Z.pos m - 2 ^ 23) + Z.b2z s * 2 ^ 31) by lia.
        rewrite Z.div_add by lia. rewrite Z.div_small; [lia |].
        change (2 ^ 31) with (256 * 2 ^ 23). lia. }
      rewrite Hfrac, Hquot, Htop.
      replace ((2 ^ 8 * Z.b2z s + (e + 150)) mod 256) with (e + 150).
      2:{ replace (2 ^ 8 * Z.b2z s + (e + 150)) with (e + 150 + Z.b2z s * 256) by lia.
          rewrite Z.mod_add by lia. symmetry. apply Z.mod_small. lia. }
      destruct (Z.eqb_spec (e + 150) 255); [lia |].
      destruct (Z.eqb_spec (e + 150) 0); [lia |].
      replace (Z.pos m - 2 ^ 23 + 2 ^ 23) with (Z.pos m) by lia.
      replace (e + 150 - 150) with e by lia.
      destruct s; reflexivity.
    + destruct (Z.ltb_spec (Z.pos m) (2 ^ 23)); [| lia].
      set (sign := if s then 2 ^ 31 else 0).
      assert (Hsign : sign = 2 ^ 31 * Z.b2z s) by (destruct s; reflexivity).
      assert (Hfrac : (sign + Z.pos m) mod 2 ^ 23 = Z.pos m).
      { rewrite Hsign. change (2 ^ 31) with (2 ^ 8 * 2 ^ 23).
        replace (2 ^ 8 * 2 ^ 23 * Z.b2z s + Z.pos m)
          with (Z.pos m + (2 ^ 8 * Z.b2z s) * 2 ^ 23) by lia.
        rewrite Z.mod_add by lia. apply Z.mod_small. lia. }
      assert (Hquot : (sign + Z.pos m) / 2 ^ 23 = 2 ^ 8 * Z.b2z s).
      { rewrite Hsign. change (2 ^ 31) with (2 ^ 8 * 2 ^ 23).
        replace (2 ^ 8 * 2 ^ 23 * Z.b2z s + Z.pos m)
          with (Z.pos m + (2 ^ 8 * Z.b2z s) * 2 ^ 23) by lia.
        rewrite Z.div_add by lia. rewrite Z.div_small by lia. lia. }
      assert (Htop : (sign + Z.pos m) / 2 ^ 31 = Z.b2z s).
      { rewrite Hsign.
        replace (2 ^ 31 * Z.b2z s + Z.pos m) with (Z.pos m + Z.b2z s * 2 ^ 31) by lia.
        rewrite Z.div_add by lia. rewrite Z.div_small; [lia |].
        change (2 ^ 31) with (256 * 2 ^ 23). lia. }
      rewrite Hfrac, Hquot, Htop.
      replace ((2 ^ 8 * Z.b2z s) mod 256) with 0.
      2:{ replace (2 ^ 8 * Z.b2z s) with (Z.b2z s * 256) by lia.
          now rewrite Z.mod_mul. }
      cbn [Z.eqb]. destruct s; reflexivity.
Qed.

Lemma byte_value_of_Z (v : Z) :
  0 <= v < 256 ->
  byte_value (byte_of_ascii (ascii_of_N (Z.to_N v))) = v.
Proof.
  intros Hv. unfold byte_value.
  rewrite (Byte.to_of_N (N_of_ascii (ascii_of_N (Z.to_N v))))
    by (symmetry; apply byte_of_ascii_via_N).
  rewrite N_ascii_embedding by lia. lia.
Qed.

Lemma le_word_split (v : Z) :
  0 <= v < 4294967296 ->
  v mod 256 + 256 * ((v / 256) mod 256) + 65536 * ((v / 65536) mod 256)
  + 16777216 * ((v / 16777216) mod 256) = v.
Proof.
  intros Hv.
  change 65536 with (256 * 256). change 16777216 with (256 * 256 * 256).
  rewrite <- !Z.div_div by lia.
  set (q1 := v / 256). set (q2 := q1 / 256). set (q3 := q2 / 256).
  pose proof (Z.div_mod v 256 ltac:(lia)) as H0. fold q1 in H0.
  pose proof (Z.div_mod q1 256 ltac:(lia)) as H1. fold q2 in H1.
  pose proof (Z.div_mod q2 256 ltac:(lia)) as H2. fold q3 in H2.
  pose proof (Z.mod_pos_bound v 256 ltac:(lia)).
  pose proof (Z.mod_pos_bound q1 256 ltac:(lia)).
  pose proof (Z.mod_pos_bound q2 256 ltac:(lia)).
  assert (0 <= q3 < 256) as Hq3.
  { unfold q3, q2, q1. rewrite !Z.div_div by lia.
    split; [apply Z.div_pos; lia | apply Z.div_lt_upper_bound; lia]. }
  rewrite (Z.mod_small q3) by lia.
  lia.
Qed.

(** The four bytes of a [float32], read as a little-endian word, are its
    bits. *)
Lemma le_bytes_value (x : F32.t) :
  valid_binary F32.prec F32.emax x = true ->
  exists b0 b1 b2 b3,
    F32.le_bytes x = [b0; b1; b2; b3] /\
    byte_value b0 + 2 ^ 8 * byte_value b1 + 2 ^ 16 * byte_value b2
    + 2 ^ 24 * byte_value b3 = F32.bits x.
Proof.
  intros Hvalid. pose proof (bits_range x Hvalid) as Hrange.
  unfold F32.le_bytes. eexists _, _, _, _. split; [reflexivity |].
  rewrite !Z.shiftr_div_pow2 by lia.
  rewrite !byte_value_of_Z by (apply Z.mod_pos_bound; lia).
  change (2 ^ (8 * 0)) with 1. change (2 ^ (8 * 1)) with 256.
  change (2 ^ (8 * 2)) with 65536. change (2 ^ (8 * 3)) with 16777216.
  rewrite Z.div_1_r. apply le_word_split. exact Hrange.
Qed.

Lemma convertFloat32ArrayToBlob_loop_append (vector : list F32.t) :
  forall buf,
    convertFloat32ArrayToBlob_loop vector buf
    = inr (buf ++ concat (map F32.le_bytes vector))%list.
Proof.
  induction vector as [| v vector IH]; intros buf;
    cbn [convertFloat32ArrayToBlob_loop map concat].
  - now rewrite app_nil_r.
  - rewrite IH, <- app_assoc. reflexivity.
Qed.

End BlobFacts.

(** X1. The blob [convertFloat32ArrayToBlob] builds loses nothing: for a
    vector of [float32] values the conversion returns no error, and
    reading the blob back four little-endian bytes at a time gives the
    vector again. *)
Theorem blob_round_trip (vector : list F32.t) :
  Forall (fun x => valid_binary F32.prec F32.emax x = true) vector ->
  exists blob,
    convertFloat32ArrayToBlob vector = inr blob /\
    blobToFloat32Array blob = Some vector.
Proof.
  intros Hvalid. unfold convertFloat32ArrayToBlob.
  rewrite convertFloat32ArrayToBlob_loop_append. eexists. split; [reflexivity |].
  cbn [app]. induction Hvalid as [| x vector Hx _ IH]; [reflexivity |].
  cbn [map concat].
  destruct (le_bytes_value x Hx) as (b0 & b1 & b2 & b3 & -> & Hbits).
  cbn [app blobToFloat32Array]. rewrite IH, Hbits, Float32frombits_bits by exact Hx.
  reflexivity.
Qed.

Section OrderFacts.

Lemma normalisation_order_check_all :
  forallb normalisation_order_check (map Z.of_nat (seq 0 255)) = true.
Proof. vm_compute. reflexivity. Qed.

Lemma normalisation_order_step (p : Z) :
  0 <= p < 255 ->
  exists s t,
    storedValue p = Some s /\ storedValue (p + 1) = Some t /\
    (queryValue p < queryValue (p + 1))%Q /\ (s < t)%Q /\
    (0 <= queryValue p)%Q /\ (queryValue (p + 1) <= 1)%Q /\
    (0 <= s)%Q /\ (t <= 1)%Q.
Proof.
  intros Hp.
  assert (Hin : In p (map Z.of_nat (seq 0 255))).
  { apply in_map_iff. exists (Z.to_nat p). split; [lia | apply in_seq; lia]. }
  pose proof (proj1 (forallb_forall _ _) normalisation_order_check_all p Hin) as Hc.
  unfold normalisation_order_check in Hc.
  destruct (storedValue p) as [s |]; [| discriminate].
  destruct (storedValue (p + 1)) as [t |]; [| discriminate].
  apply andb_true_iff in Hc as [Hc Ht1].
  apply andb_true_iff in Hc as [Hc Hs0].
  apply andb_true_iff in Hc as [Hc Hq1].
  apply andb_true_iff in Hc as [Hc Hq0].
  apply andb_true_iff in Hc as [Hq Hst].
  exists s, t. repeat split; try (now apply Qle_bool_iff).
  - apply Qnot_le_lt. intros Hle. apply Qle_bool_iff in Hle.
    rewrite Hle in Hq. discriminate.
  - apply Qnot_le_lt. intros Hle. apply Qle_bool_iff in Hle.
    rewrite Hle in Hst. discriminate.
Qed.

End OrderFacts.

(** X2. Normalisation keeps the order of the intensities: for
    [0 <= p < q <= 255] the query values [float32(p)/255] lie in [0, 1]
    and increase strictly, and so do the numbers the stored numerals
    denote; in particular two different intensities never get the same
    pixel string. *)
Theorem normalisation_is_increasing (p q : Z) :
  0 <= p -> p < q -> q <= 255 ->
  (0 <= queryValue p)%Q /\ (queryValue p < queryValue q)%Q /\
  (queryValue q <= 1)%Q /\
  exists s t,
    storedValue p = Some s /\ storedValue q = Some t /\
    (0 <= s)%Q /\ (s < t)%Q /\ (t <= 1)%Q /\
    pixelString p <> pixelString q.
Proof.
  intros Hp Hpq Hq.
  assert (Hgen : forall n : nat,
             (Z.of_nat n < 255 - p) ->
             exists s t,
               storedValue p = Some s /\ storedValue (p + 1 + Z.of_nat n) = Some t /\
               (0 <= queryValue p)%Q /\
               (queryValue p < queryValue (p + 1 + Z.of_nat n))%Q /\
               (queryValue (p + 1 + Z.of_nat n) <= 1)%Q /\
               (0 <= s)%Q /\ (s < t)%Q /\ (t <= 1)%Q).
  { induction n as [| n IH]; intros Hn.
    - rewrite Z.add_0_r.
      destruct (normalisation_order_step p ltac:(lia))
        as (s & t & Hs & Ht & ? & ? & ? & ? & ? & ?).
      exists s, t. auto 10.
    - destruct IH as (s & t & Hs & Ht & ? & ? & ? & ? & ? & ?); [lia |].
      destruct (normalisation_order_step (p + 1 + Z.of_nat n) ltac:(lia))
        as (t' & u & Ht' & Hu & ? & ? & ? & ? & ? & ?).
      rewrite Ht in Ht'. injection Ht' as <-.
      replace (p + 1 + Z.of_nat (S n)) with (p + 1 + Z.of_nat n + 1) by lia.
      exists s, u. repeat split; try assumption.
      + eapply Qlt_trans; eassumption.
      + eapply Qlt_trans; eassumption. }
  destruct (Hgen (Z.to_nat (q - p - 1)) ltac:(lia))
    as (s & t & Hs & Ht & ? & ? & ? & ? & Hst & ?).
  replace (p + 1 + Z.of_nat (Z.to_nat (q - p - 1))) with q in * by lia.
  repeat split; try assumption.
  exists s, t. repeat split; try assumption.
  intros E. unfold storedValue in Hs, Ht. rewrite E, Ht in Hs.
  injection Hs as ->. exact (Qlt_irrefl _ Hst).
Qed.

Lemma normalisation_is_increasing_witness :
  (queryValue 50 < queryValue 51)%Q /\ pixelString 50 <> pixelString 51.
Proof.
  destruct (normalisation_is_increasing 50 51) as (_ & Hlt & _ & s & t & _ & _ & _ & _ & _ & Hne);
    [lia | lia | lia |].
  split; [exact Hlt | exact Hne].
Defined.

Section IngestionOutput.

Context {Conn : Type} `{Backend Conn}.

(** What an iteration of [StoreData] that completes has done. *)
Lemma StoreData_row_returns (i : Z) (record : list string) (w w' : World) :
  StoreData_row i record w = (w', Returns tt) ->
  exists label pixelValues result pixelStrings resp,
    record = label :: pixelValues /\
    Strconv.Atoi label = inr result /\
    pixelStrings_loop pixelValues [] = inr pixelStrings /\
    Do (redis w)
       [AStr "JSON.SET"; AStr (key i result); AStr "$";
        AStr (jsonData result (Strings.Join pixelStrings ","))]
    = (redis w', resp) /\
    (exists r, reply resp = inr r) /\
    files w' = files w /\
    stdout w' = (stdout w ++ [("Stored JSON for " ++ key i result)%string])%list /\
    minDuration w' = minDuration w /\
    maxDuration w' = maxDuration w /\
    totalDuration w' = totalDuration w.
Proof.
  unfold StoreData_row.
  destruct record as [| label pixelValues]; [discriminate |].
  destruct (Strconv.Atoi label) as [err | result] eqn:Hl; [discriminate |].
  destruct (pixelStrings_loop pixelValues []) as [err | ps] eqn:Hps; [discriminate |].
  destruct (Do (redis w) _) as [conn resp] eqn:Hdo.
  destruct (reply resp) as [err | r] eqn:Hr; [discriminate |].
  intros [= <-]. exists label, pixelValues, result, ps, resp.
  cbn. repeat split; solve [reflexivity | assumption | eauto].
Qed.

(** The output and the untouched parts of the world after a loop that
    completes: one progress line per record. *)
Lemma StoreData_loop_returns (records : list (list string)) :
  forall i (w w' : World),
    StoreData_loop i records w = (w', Returns tt) ->
    List.length (entries i records) = List.length records /\
    stdout w'
    = (stdout w
         ++ map (fun kv => ("Stored JSON for " ++ fst kv)%string)
              (entries i records))%list /\
    files w' = files w /\
    minDuration w' = minDuration w /\
    maxDuration w' = maxDuration w /\
    totalDuration w' = totalDuration w.
Proof.
  induction records as [| record rest IH]; intros i w w' E.
  - injection E as <-. cbn. rewrite app_nil_r. auto 10.
  - cbn [StoreData_loop] in E.
    destruct (StoreData_row i record w) as [w1 [[] | err | p]] eqn:Erow;
      try discriminate.
    apply StoreData_row_returns in Erow
      as (label & pvs & result & ps & resp & -> & Hl & Hps & _ & _
          & Hf & Hout & Hmn & Hmx & Htot).
    apply IH in E as (Hlen & Hout' & Hf' & Hmn' & Hmx' & Htot').
    cbn [entries]. rewrite Hl, Hps. cbn [List.length map fst].
    repeat split; try congruence.
    rewrite Hout', Hout, <- app_assoc. reflexivity.
Qed.

(** [StoreData] leaves the files as they are. *)
Lemma ingestion_files (w w' : World) (file records : list (list string)) :
  Open (files w) "mnist_train.csv" = inr file ->
  Csv.ReadAll file = inr records ->
  StoreData w = (w', Returns tt) ->
  files w' = files w.
Proof.
  intros Hopen Hread. unfold StoreData. rewrite Hopen, Hread.
  destruct (StoreData_loop 0 records w) as [w1 [[] | err | p]] eqn:Hloop;
    try discriminate.
  intros [= <-]. apply StoreData_loop_returns in Hloop as (_ & _ & Hf & _).
  exact Hf.
Qed.

(** X3. An error of [JSON.SET] stops [StoreData]: if the rows before a
    row have been stored and the command for that row is answered with an
    error, [StoreData] returns that error in the state the command left,
    and the output holds the progress lines of the earlier rows and
    nothing else. *)
Theorem backend_error_aborts_ingestion
  (w w1 : World) (file good rest : list (list string))
  (label : string) (pixelValues : list string) (result : Z)
  (pixelStrings : list string) (conn : Conn) (resp : Response) (err : error) :
  Open (files w) "mnist_train.csv" = inr file ->
  Csv.ReadAll file = inr (good ++ (label :: pixelValues) :: rest)%list ->
  StoreData_loop 0 good w = (w1, Returns tt) ->
  Strconv.Atoi label = inr result ->
  pixelStrings_loop pixelValues [] = inr pixelStrings ->
  Do (redis w1)
     [AStr "JSON.SET"; AStr (key (Z.of_nat (List.length good)) result); AStr "$";
      AStr (jsonData result (Strings.Join pixelStrings ","))]
  = (conn, resp) ->
  reply resp = inl err ->
  StoreData w = (with_redis w1 conn, Fails err) /\
  stdout (with_redis w1 conn)
  = (stdout w
       ++ map (fun kv => ("Stored JSON for " ++ fst kv)%string) (entries 0 good))%list.
Proof.
  intros Hopen Hread Hgood Hl Hps Hdo Herr. split.
  - unfold StoreData. rewrite Hopen, Hread, StoreData_loop_app, Hgood.
    cbn [StoreData_loop]. unfold StoreData_row.
    rewrite Hl, Hps, Z.add_0_l, Hdo, Herr. reflexivity.
  - apply StoreData_loop_returns in Hgood as (_ & Hout & _). exact Hout.
Qed.

(** X4. A [StoreData] that returns [nil] has stored every record of the
    file: it has printed one line [Stored JSON for <key>] per record, in
    order, and then [All data has been stored in Redis.]; the files and
    the three duration variables are as they were. *)
Theorem ingestion_prints_one_line_per_row
  (w w' : World) (file records : list (list string)) :
  Open (files w) "mnist_train.csv" = inr file ->
  Csv.ReadAll file = inr records ->
  StoreData w = (w', Returns tt) ->
  List.length (entries 0 records) = List.length records /\
  stdout w'
  = (stdout w
       ++ map (fun kv => ("Stored JSON for " ++ fst kv)%string) (entries 0 records)
       ++ ["All data has been stored in Redis."])%list /\
  files w' = files w /\
  minDuration w' = minDuration w /\
  maxDuration w' = maxDuration w /\
  totalDuration w' = totalDuration w.
Proof.
  intros Hopen Hread. unfold StoreData. rewrite Hopen, Hread.
  destruct (StoreData_loop 0 records w) as [w1 [[] | err | p]] eqn:Hloop;
    try discriminate.
  intros [= <-].
  apply StoreData_loop_returns in Hloop as (Hlen & Hout & Hf & Hmn & Hmx & Htot).
  cbn. rewrite Hout, <- app_assoc. auto 10.
Qed.

End IngestionOutput.

(** ** The store after an ingestion *)

Section StoreContent.

Lemma set_all_union (kvs : list (string * string)) :
  forall store : gmap string string,
    set_all store kvs = union (list_to_map (rev kvs)) store.
Proof.
  unfold set_all.
  induction kvs as [| [k v] kvs IH]; intros store; cbn [fold_left rev fst snd].
  - cbn. now rewrite (left_id_L empty union).
  - rewrite IH, list_to_map_app. cbn [list_to_map foldr fst snd uncurry].
    rewrite <- (assoc_L union), <- insert_union_l, (left_id_L empty union). reflexivity.
Qed.

(** Setting the same entries a second time changes nothing. *)
Lemma set_all_twice (kvs : list (string * string)) (store : gmap string string) :
  set_all (set_all store kvs) kvs = set_all store kvs.
Proof.
  rewrite !set_all_union, (assoc_L union), (idemp_L union). reflexivity.
Qed.

Lemma set_all_lookup_other (kvs : list (string * string)) :
  forall (store : gmap string string) k,
    ~ In k (map fst kvs) -> set_all store kvs !! k = store !! k.
Proof.
  unfold set_all.
  induction kvs as [| [k' v] kvs IH]; intros store k Hk; [reflexivity |].
  cbn [fold_left fst snd]. cbn [map fst] in Hk.
  rewrite IH by (intros Hin; apply Hk; now right).
  apply lookup_insert_ne. intros ->. apply Hk. now left.
Qed.

Lemma set_all_keeps_keys (kvs : list (string * string)) :
  forall (store : gmap string string) k,
    is_Some (store !! k) -> is_Some (set_all store kvs !! k).
Proof.
  unfold set_all.
  induction kvs as [| [k' v] kvs IH]; intros store k Hk; [exact Hk |].
  cbn [fold_left fst snd]. apply IH.
  destruct (decide (k' = k)) as [-> | Hne].
  - rewrite lookup_insert_eq. eauto.
  - now rewrite lookup_insert_ne.
Qed.

(** Over the key-value store the loop succeeds exactly on well-formed
    records, and sets their entries in order. *)
Lemma StoreData_loop_sets_entries (records : list (list string)) :
  forall i (w w' : KVWorld),
    StoreData_loop i records w = (w', Returns tt) ->
    redis w' = set_all (redis w) (entries i records).
Proof.
  induction records as [| record rest IH]; intros i w w' E.
  - now injection E as <-.
  - cbn [StoreData_loop] in E.
    destruct (StoreData_row i record w) as [w1 [[] | err | p]] eqn:Erow;
      try discriminate.
    apply StoreData_row_KeyValue in Erow
      as (label & pvs & result & ps & -> & Hl & Hps & Hw1).
    cbn [entries]. rewrite Hl, Hps. unfold set_all. cbn [fold_left fst snd].
    rewrite (IH _ _ _ E), Hw1. reflexivity.
Qed.

Lemma StoreData_loop_well_formed (records : list (list string)) :
  forall i,
    List.length (entries i records) = List.length records ->
    forallb well_formed records = true.
Proof.
  induction records as [| record rest IH]; intros i Hlen; [reflexivity |].
  cbn [entries] in Hlen. cbn [forallb]. unfold well_formed at 1.
  destruct record as [| label pvs]; [discriminate |].
  cbn [first_bad_field].
  destruct (Strconv.Atoi label) as [err | result]; [discriminate |].
  pose proof (pixelStrings_loop_spec pvs []) as Hspec.
  destruct (pixelStrings_loop pvs []) as [err | ps]; [discriminate |].
  destruct (first_bad_field pvs); [discriminate |].
  cbn [List.length] in Hlen. injection Hlen as Hlen.
  cbn. eapply IH. exact Hlen.
Qed.

(** X5. Over a key-value store, a [StoreData] that returns [nil] leaves
    the store it found overwritten with the documents of the rows, in
    order: every key that was bound is still bound, and a key that is
    not the key of a row has the document it had. *)
Theorem ingestion_overlays_the_store
  (w w' : KVWorld) (file records : list (list string)) :
  Open (files w) "mnist_train.csv" = inr file ->
  Csv.ReadAll file = inr records ->
  StoreData w = (w', Returns tt) ->
  redis w' = set_all (redis w) (entries 0 records) /\
  (forall k, is_Some (redis w !! k) -> is_Some (redis w' !! k)) /\
  (forall k, ~ In k (map fst (entries 0 records)) ->
             redis w' !! k = redis w !! k).
Proof.
  intros Hopen Hread Hret.
  destruct (StoreData_returns w w' file records Hopen Hread Hret) as (w1 & Hloop & ->).
  rewrite (StoreData_loop_sets_entries records 0 w w1 Hloop).
  split; [reflexivity |]. split.
  - intros k. apply set_all_keeps_keys.
  - intros k. apply set_all_lookup_other.
Qed.

(** X6. Over a key-value store, ingestion is idempotent: after a
    [StoreData] that returned [nil], a second [StoreData] over the same
    file returns [nil] too and leaves the store as the first left it. *)
Theorem ingestion_is_idempotent
  (w w1 : KVWorld) (file records : list (list string)) :
  Open (files w) "mnist_train.csv" = inr file ->
  Csv.ReadAll file = inr records ->
  StoreData w = (w1, Returns tt) ->
  exists w2, StoreData w1 = (w2, Returns tt) /\ redis w2 = redis w1.
Proof.
  intros Hopen Hread Hret.
  destruct (StoreData_returns w w1 file records Hopen Hread Hret) as (w0 & Hloop & Hredis).
  pose proof (ingestion_files w w1 file records Hopen Hread Hret) as Hfiles.
  pose proof (StoreData_loop_returns records 0 w w0 Hloop) as (Hlen & _).
  pose proof (StoreData_loop_well_formed records 0 Hlen) as Hwf.
  destruct (StoreData_completes w1 file records) as (w2 & Hret2);
    [now rewrite Hfiles | exact Hread | exact Hwf |].
  exists w2. split; [exact Hret2 |].
  destruct (StoreData_returns w1 w2 file records) as (w3 & Hloop2 & ->);
    [now rewrite Hfiles | exact Hread | exact Hret2 |].
  rewrite (StoreData_loop_sets_entries records 0 w1 w3 Hloop2), Hredis.
  rewrite (StoreData_loop_sets_entries records 0 w w0 Hloop).
  apply set_all_twice.
Qed.

End StoreContent.

(** ** Labels *)

Section LabelFacts.

Context {Conn : Type} `{Backend Conn}.

(** What [Atoi] returns fits [int]. *)
Lemma Atoi_in_range (s : string) (n : Z) :
  Strconv.Atoi s = inr n -> GoInt.in_range n.
Proof.
  unfold Strconv.Atoi, Strconv.ParseInt.
  destruct s as [| c rest]; [discriminate |].
  destruct (Strconv.ParseUint _) as [[] | un] eqn:HU; try discriminate.
  assert (Hun : 0 <= un).
  { revert HU. generalize (if Ascii.eqb c "+" || Ascii.eqb c "-" then rest
                           else String c rest).
    intros body. unfold Strconv.ParseUint.
    destruct body as [| c' body']; [discriminate |].
    assert (Hloop : forall t a v, 0 <= a -> Strconv.parseUint_loop t a = inr v -> 0 <= v).
    { induction t as [| d t IH]; intros a v Ha; cbn [Strconv.parseUint_loop].
      - now intros [= <-].
      - destruct (Strconv.is_digit d) eqn:Hd; [| discriminate].
        destruct (a >=? _); [discriminate |].
        destruct (_ >? _); [discriminate |].
        apply IH. unfold Strconv.is_digit, Strconv.digit_val in *.
        apply andb_true_iff in Hd as [Hd1 Hd2].
        apply Z.leb_le in Hd1. lia. }
    apply Hloop. lia. }
  destruct (Ascii.eqb c "-"); cbn [negb andb].
  - destruct (Z.gtb_spec un (2 ^ 63)); [discriminate |].
    intros [= <-]. int64_bounds.
  - destruct (Z.geb_spec un (2 ^ 63)); [discriminate |].
    intros [= <-]. int64_bounds.
Qed.

(** X7. Every label [strconv.Atoi] accepts, signed ones included,
    survives the way through a key: it fits [int], printing it with [%d]
    and parsing the result gives it back, and a search answered with the
    key [number:i:label] returns the label with the duration of the
    call. *)
Theorem accepted_label_round_trips
  (rdb rdb' : Conn) (embedding : list F32.t) (blob : list Byte.byte)
  (resp : Response) (total : Reply) (fields : list Reply)
  (label : string) (result i : Z) :
  Strconv.Atoi label = inr result ->
  convertFloat32ArrayToBlob embedding = inr blob ->
  Do rdb (searchQuery blob) = (rdb', resp) ->
  reply resp = inr (RArr (total :: RStr (key i result) :: fields)) ->
  GoInt.in_range result /\
  Strconv.Atoi (Strconv.Itoa result) = inr result /\
  searchVectorInRedis rdb embedding
  = (rdb', Returns (result, Milliseconds (elapsed_ns resp))).
Proof.
  intros Hl Hblob Hdo Hreply.
  pose proof (Atoi_in_range label result Hl) as Hrange.
  split; [exact Hrange |]. split; [now apply Atoi_Itoa |].
  now apply searchVectorInRedis_key
    with (blob := blob) (first := total) (more := fields) (i := i).
Qed.

End LabelFacts.

(** ** Rows that do not complete *)

Section EvaluationStops.

Context {Conn : Type} `{Backend Conn}.

Lemma SearchData_row_bad_field (i : Z) (record : list string) (c wr : Z)
  (w : World) (err : error) :
  first_bad_field record = Some err ->
  SearchData_row i record c wr w = (w, Fails err).
Proof.
  destruct record as [| label pixelValues]; [discriminate |].
  unfold SearchData_row. cbn [first_bad_field].
  destruct (Strconv.Atoi label) as [e | expected]; [now intros [= ->] |].
  intros Hbad. pose proof (embedding_loop_spec pixelValues []) as Hspec.
  rewrite Hbad in Hspec. now rewrite Hspec.
Qed.

(** X8. [SearchData] stops at the first row that does not complete: once
    the rows before it have been evaluated, a field [Atoi] rejects makes
    [SearchData] return that error without a search, and a search that
    panics makes [SearchData] panic in the state the search left; the
    output then holds the lines of the earlier queries only. *)
Theorem evaluation_stops_at_first_incomplete_row
  (w w1 : World) (file good rest : list (list string)) (bad : list string)
  (c wr : Z) :
  Open (files w) "mnist_test.csv" = inr file ->
  Csv.ReadAll file = inr (good ++ bad :: rest)%list ->
  SearchData_loop 0 good 0 0 w = (w1, Returns (c, wr)) ->
  (forall err, first_bad_field bad = Some err -> SearchData w = (w1, Fails err)) /\
  (forall label pixelValues e embedding conn p,
      bad = label :: pixelValues ->
      Strconv.Atoi label = inr e ->
      embedding_loop pixelValues [] = inr embedding ->
      searchVectorInRedis (redis w1) embedding = (conn, Panics p) ->
      SearchData w = (with_redis w1 conn, Panics p)) /\
  stdout w1 = (stdout w ++ query_lines 0 (queries (redis w) good))%list.
Proof.
  intros Hopen Hread Hgood. split; [| split].
  - intros err Hbad. unfold SearchData.
    rewrite Hopen, Hread, SearchData_loop_app, Hgood.
    cbn [SearchData_loop].
    now rewrite SearchData_row_bad_field with (err := err).
  - intros label pixelValues e embedding conn p -> Hl Hemb Hs. unfold SearchData.
    rewrite Hopen, Hread, SearchData_loop_app, Hgood.
    cbn [SearchData_loop SearchData_row]. rewrite Hl, Hemb, Hs. reflexivity.
  - apply SearchData_loop_returns in Hgood as (_ & _ & Hout & _);
      [exact Hout | int64_bounds ..].
Qed.

End EvaluationStops.

(** ** The figures of the report *)

Section ReportFacts.

Context {Conn : Type} `{Backend Conn}.

Lemma sum_bounds (ds : list Z) (lo hi : Z) :
  Forall (Z.le lo) ds -> Forall (fun d => d <= hi) ds ->
  lo * Z.of_nat (List.length ds) <= fold_right Z.add 0 ds
  <= hi * Z.of_nat (List.length ds).
Proof.
  intros Hlo Hhi. induction ds as [| d ds IH]; [cbn; lia |].
  inversion Hlo; subst. inversion Hhi; subst.
  cbn [fold_right List.length]. rewrite Nat2Z.inj_succ.
  specialize (IH ltac:(assumption) ltac:(assumption)). lia.
Qed.

(** No query has a negative latency. *)
Lemma queries_latency_nonneg (records : list (list string)) :
  forall rdb : Conn, Forall (Z.le 0) (map latency (queries rdb records)).
Proof.
  induction records as [| record rest IH]; intros rdb; cbn [queries map];
    [constructor |].
  destruct record as [| label pixelValues]; [constructor |].
  destruct (Strconv.Atoi label) as [err | e]; [constructor |].
  destruct (embedding_loop pixelValues []) as [err | embedding]; [constructor |].
  destruct (searchVectorInRedis rdb embedding) as [rdb' [[f d] | err | p]] eqn:Hs;
    try constructor.
  - eapply searchVectorInRedis_latency. exact Hs.
  - apply IH.
Qed.

(** The variables a call that returns leaves are those its loop left. *)
Lemma SearchData_returns_durations (w w' : World) (file records : list (list string)) :
  Open (files w) "mnist_test.csv" = inr file ->
  Csv.ReadAll file = inr records ->
  SearchData w = (w', Returns tt) ->
  exists w1 c wr,
    SearchData_loop 0 records 0 0 w = (w1, Returns (c, wr)) /\
    minDuration w' = minDuration w1 /\
    maxDuration w' = maxDuration w1 /\
    totalDuration w' = totalDuration w1 /\
    redis w' = redis w1.
Proof.
  intros Hopen Hread. unfold SearchData. rewrite Hopen, Hread.
  destruct (SearchData_loop 0 records 0 0 w) as [w1 [[c wr] | err | p]];
    try discriminate.
  destruct (accuracy c wr) as [acc |]; [| discriminate].
  cbn [totalDuration Println].
  destruct (averageDuration (totalDuration w1) records) as [avg |];
    [| discriminate].
  intros [= <-]. exists w1, c, wr. cbn. auto.
Qed.

(** X9. The accuracy [SearchData] reports is a percentage: when every
    query completes and [100 * len(records)] fits [int64], it lies
    between 0 and 100, it is 100 exactly when no guess was wrong, and it
    is 0 exactly when fewer than one guess in a hundred was right. *)
Theorem accuracy_is_a_percentage
  (w : World) (file records : list (list string)) :
  Open (files w) "mnist_test.csv" = inr file ->
  Csv.ReadAll file = inr records ->
  records <> [] ->
  100 * Z.of_nat (List.length records) <= GoInt.maxInt64 ->
  let qs := queries (redis w) records in
  let correct := correct_count qs in
  let wrong := wrong_count qs in
  let acc := Z.quot (100 * correct) (correct + wrong) in
  List.length qs = List.length records ->
  (exists w' mn mx avg,
      SearchData w = (w', Returns tt) /\
      stdout w'
      = (stdout w ++ query_lines 0 qs
           ++ summary_lines correct wrong acc mn mx avg)%list) /\
  0 <= acc <= 100 /\
  (acc = 100 <-> wrong = 0) /\
  (acc = 0 <-> 100 * correct < correct + wrong).
Proof.
  intros Hopen Hread Hne Hbound qs correct wrong acc Hall.
  destruct (SearchData_completes w file records Hopen Hread Hne) as (w' & Hret);
    [int64_bounds | exact Hall |].
  destruct (SearchData_accuracy w w' file records Hopen Hread Hret Hbound)
    as (_ & Hpos & (mn & mx & avg & Hout) & _).
  fold qs correct wrong in Hpos, Hout. fold acc in Hout.
  split; [exists w', mn, mx, avg; auto |].
  pose proof (correct_count_nonneg qs) as Hc. fold correct in Hc.
  pose proof (wrong_count_nonneg qs) as Hw. fold wrong in Hw.
  unfold acc. rewrite Z.quot_div_nonneg by lia.
  split; [| split].
  - split; [apply Z.div_pos; lia | apply Z.div_le_upper_bound; lia].
  - split.
    + intros E.
      pose proof (Z.mul_div_le (100 * correct) (correct + wrong) ltac:(lia)) as Hle.
      rewrite E in Hle. lia.
    + intros Hw0. rewrite Hw0, Z.add_0_r in *. apply Z.div_mul. lia.
  - rewrite Z.div_small_iff by lia. lia.
Qed.

(** X10. In a run of [SearchData] that starts from the values [main]
    assigns, over a test file that is not empty and whose queries all
    complete, the reported average lies between the reported minimum
    and the reported maximum, and the minimum is not negative. *)
Theorem average_lies_between_minimum_and_maximum
  (w : World) (file records : list (list string)) :
  Open (files w) "mnist_test.csv" = inr file ->
  Csv.ReadAll file = inr records ->
  records <> [] ->
  Z.of_nat (List.length records) <= GoInt.maxInt64 ->
  let qs := queries (redis w) records in
  List.length qs = List.length records ->
  total_latency qs <= GoInt.maxInt64 ->
  exists w' correct wrong acc mn mx avg,
    SearchData (main_init w) = (w', Returns tt) /\
    stdout w'
    = (stdout w ++ query_lines 0 qs
         ++ summary_lines correct wrong acc mn mx avg)%list /\
    0 <= mn <= avg /\ avg <= mx.
Proof.
  intros Hopen Hread Hne Hbound qs Hall Hsum.
  destruct (SearchData_completes (main_init w) file records Hopen Hread Hne Hbound Hall)
    as (w' & Hret).
  destruct (SearchData_latencies w w' file records Hopen Hread Hret Hsum)
    as (Hlen & _ & correct & wrong & acc & mn & mx & avg
        & Hout & Hlow & Hmin & Hcap & Hmax & Hhigh & Havg).
  exists w', correct, wrong, acc, mn, mx, avg.
  split; [exact Hret |]. split; [exact Hout |].
  subst qs. set (ds := map latency (queries (redis w) records)) in *.
  pose proof (sum_bounds ds mn mx Hlow Hhigh) as [Hlo Hhi].
  assert (Hn : 0 < Z.of_nat (List.length ds)).
  { rewrite Hlen. destruct records; [contradiction | cbn [List.length]; lia]. }
  assert (Hpos : Forall (Z.le 0) ds).
  { apply SearchData_returns_durations with (file := file) (records := records) in Hret
      as (w1 & c & wr & Hloop & _); [| exact Hopen | exact Hread].
    apply SearchData_loop_durations in Hloop as (Hpos & _); [exact Hpos |].
    cbn. int64_bounds. }
  assert (Hmn : 0 <= mn).
  { destruct (decide (Exists (fun d => d <= 999999) ds)) as [Hex | Hnex].
    - specialize (Hmin Hex). rewrite List.Forall_forall in Hpos. now apply Hpos.
    - rewrite Hcap; [lia |]. apply List.Forall_Exists_neg in Hnex.
      eapply List.Forall_impl; [| exact Hnex]. cbn. intros; lia. }
  pose proof (sum_nonneg ds Hpos) as Hs0.
  rewrite Havg, Z.quot_div_nonneg by lia.
  repeat split.
  - exact Hmn.
  - apply Z.div_le_lower_bound; lia.
  - apply Z.div_le_upper_bound; lia.
Qed.

(** X11. [SearchData] accumulates into the package variables and never
    resets them: from any initial values, a run that returns [nil] leaves
    the minimum of the initial [minDuration] and the latencies, the
    maximum of the initial [maxDuration] and the latencies, and the
    initial [totalDuration] plus the latencies; the average it prints is
    that total divided by the number of records. *)
Theorem evaluation_accumulates_into_the_variables
  (w w' : World) (file records : list (list string)) :
  Open (files w) "mnist_test.csv" = inr file ->
  Csv.ReadAll file = inr records ->
  SearchData w = (w', Returns tt) ->
  let qs := queries (redis w) records in
  0 <= totalDuration w ->
  totalDuration w + total_latency qs <= GoInt.maxInt64 ->
  minDuration w' = fold_left Z.min (map latency qs) (minDuration w) /\
  maxDuration w' = fold_left Z.max (map latency qs) (maxDuration w) /\
  totalDuration w' = totalDuration w + total_latency qs /\
  minDuration w' <= minDuration w /\
  maxDuration w <= maxDuration w' /\
  exists correct wrong acc,
    stdout w'
    = (stdout w ++ query_lines 0 qs
         ++ summary_lines correct wrong acc (minDuration w') (maxDuration w')
              (Z.quot (totalDuration w') (Z.of_nat (List.length records))))%list.
Proof.
  intros Hopen Hread Hret qs Ht0 Hsum.
  destruct (SearchData_returns_durations w w' file records Hopen Hread Hret)
    as (w1 & c & wr & Hloop & Hmn & Hmx & Htot & _).
  destruct (SearchData_returns w w' file records Hopen Hread Hret)
    as (w1' & c' & wr' & acc & avg & Hloop' & _ & Havg & Hout).
  rewrite Hloop in Hloop'. injection Hloop' as <- <- <-.
  pose proof Hloop as Hdur.
  pose proof (sum_nonneg _ (queries_latency_nonneg records (redis w))) as Hs0.
  unfold total_latency in *. fold qs in Hs0.
  apply SearchData_loop_returns in Hloop as (_ & _ & Hout1 & _ & _);
    [| int64_bounds ..].
  apply SearchData_loop_durations in Hdur as (Hpos & Hmin1 & Hmax1 & Htot1);
    [| int64_bounds].
  fold qs in Hout1, Hpos, Hmin1, Hmax1, Htot1.
  rewrite wrap_small in Htot1 by int64_bounds.
  rewrite Hmn, Hmx, Htot, Hmin1, Hmax1, Htot1.
  split; [reflexivity |]. split; [reflexivity |]. split; [reflexivity |].
  split; [apply fold_left_min_le |]. split; [apply fold_left_max_ge |].
  exists c, wr, acc.
  assert (Havg' : avg = Z.quot (totalDuration w + fold_right Z.add 0 (map latency qs))
                          (Z.of_nat (List.length records))).
  { unfold averageDuration, GoInt.quo in Havg.
    destruct (Z.eqb_spec (Z.of_nat (List.length records)) 0) as [| Hn0];
      [discriminate |].
    injection Havg as <-. rewrite Htot1. apply wrap_small.
    assert (0 <= Z.quot (totalDuration w + fold_right Z.add 0 (map latency qs))
                   (Z.of_nat (List.length records))
            <= totalDuration w + fold_right Z.add 0 (map latency qs));
      [| int64_bounds].
    split; [apply Z.quot_pos; lia |].
    rewrite Z.quot_div_nonneg by lia. apply Z.div_le_upper_bound; nia. }
  rewrite Hout, Hout1, <- app_assoc, Hmin1, Hmax1, Havg'. reflexivity.
Qed.

End ReportFacts.

(** ** One command per row *)

Section ScriptedFacts.





End ScriptedFacts.

(** ** What the phases leave untouched *)

Section FrameFacts.

Context {Conn : Type} `{Backend Conn}.

(** The parts of two worlds no phase writes: the files. *)
Lemma StoreData_row_frame (i : Z) (record : list string) (w : World) :
  let w' := fst (StoreData_row i record w) in
  files w' = files w /\ minDuration w' = minDuration w /\
  maxDuration w' = maxDuration w /\ totalDuration w' = totalDuration w /\
  exists lines, stdout w' = (stdout w ++ lines)%list.
Proof.
  unfold StoreData_row.
  destruct record as [| label pixelValues];
    [cbn; repeat split; exists []; now rewrite app_nil_r |].
  destruct (Strconv.Atoi label) as [err | result];
    [cbn; repeat split; exists []; now rewrite app_nil_r |].
  destruct (pixelStrings_loop pixelValues []) as [err | ps];
    [cbn; repeat split; exists []; now rewrite app_nil_r |].
  destruct (Do (redis w) _) as [conn resp].
  destruct (reply resp) as [err | r]; cbn; repeat split.
  - exists []. now rewrite app_nil_r.
  - eauto.
Qed.

Lemma StoreData_loop_frame_any (records : list (list string)) :
  forall i (w : World),
    let w' := fst (StoreData_loop i records w) in
    files w' = files w /\ minDuration w' = minDuration w /\
    maxDuration w' = maxDuration w /\ totalDuration w' = totalDuration w /\
    exists lines, stdout w' = (stdout w ++ lines)%list.
Proof.
  induction records as [| record rest IH]; intros i w.
  - cbn. repeat split. exists []. now rewrite app_nil_r.
  - cbn [StoreData_loop].
    pose proof (StoreData_row_frame i record w) as Hrow.
    destruct (StoreData_row i record w) as [w1 [[] | err | p]]; cbn [fst] in Hrow;
      try exact Hrow.
    destruct Hrow as (Hf & Hmn & Hmx & Htot & l1 & Hout).
    destruct (IH (i + 1) w1) as (Hf' & Hmn' & Hmx' & Htot' & l2 & Hout').
    cbn zeta. repeat split; try congruence.
    exists (l1 ++ l2)%list. now rewrite Hout', Hout, <- app_assoc.
Qed.

Lemma SearchData_row_frame (i : Z) (record : list string) (c wr : Z) (w : World) :
  let w' := fst (SearchData_row i record c wr w) in
  files w' = files w /\ exists lines, stdout w' = (stdout w ++ lines)%list.
Proof.
  unfold SearchData_row.
  destruct record as [| label pixelValues];
    [cbn; split; [| exists []; rewrite app_nil_r]; reflexivity |].
  destruct (Strconv.Atoi label) as [err | e];
    [cbn; split; [| exists []; rewrite app_nil_r]; reflexivity |].
  destruct (embedding_loop pixelValues []) as [err | embedding];
    [cbn; split; [| exists []; rewrite app_nil_r]; reflexivity |].
  destruct (searchVectorInRedis (redis w) embedding) as [conn [[f d] | err | p]].
  - destruct (e =? f); cbn; split; eauto.
  - cbn. split; [| exists []; rewrite app_nil_r]; reflexivity.
  - cbn. split; [| exists []; rewrite app_nil_r]; reflexivity.
Qed.

Lemma SearchData_loop_frame (records : list (list string)) :
  forall i c wr (w : World),
    let w' := fst (SearchData_loop i records c wr w) in
    files w' = files w /\ exists lines, stdout w' = (stdout w ++ lines)%list.
Proof.
  induction records as [| record rest IH]; intros i c wr w.
  - cbn. split; [| exists []; rewrite app_nil_r]; reflexivity.
  - cbn [SearchData_loop].
    pose proof (SearchData_row_frame i record c wr w) as Hrow.
    destruct (SearchData_row i record c wr w) as [w1 [[c1 wr1] | err | p]];
      cbn [fst] in Hrow; try exact Hrow.
    destruct Hrow as (Hf & l1 & Hout).
    destruct (IH (i + 1) c1 wr1 w1) as (Hf' & l2 & Hout').
    cbn zeta. split; [congruence |].
    exists (l1 ++ l2)%list. now rewrite Hout', Hout, <- app_assoc.
Qed.

(** [StoreData] leaves the files and the duration variables as they are
    and only appends to the output, whatever its outcome. *)
Lemma StoreData_frame (w : World) :
  let w' := fst (StoreData w) in
  files w' = files w /\ minDuration w' = minDuration w /\
  maxDuration w' = maxDuration w /\ totalDuration w' = totalDuration w /\
  exists lines, stdout w' = (stdout w ++ lines)%list.
Proof.
  unfold StoreData.
  destruct (Open (files w) "mnist_train.csv") as [err | file];
    [cbn; repeat split; exists []; now rewrite app_nil_r |].
  destruct (Csv.ReadAll file) as [err | records];
    [cbn; repeat split; exists []; now rewrite app_nil_r |].
  pose proof (StoreData_loop_frame_any records 0 w) as Hloop.
  destruct (StoreData_loop 0 records w) as [w1 [[] | err | p]]; cbn [fst] in *;
    try exact Hloop.
  destruct Hloop as (Hf & Hmn & Hmx & Htot & l & Hout).
  cbn. repeat split; try assumption.
  exists (l ++ ["All data has been stored in Redis."])%list.
  now rewrite Hout, <- app_assoc.
Qed.

(** [SearchData] leaves the files as they are and only appends to the
    output, whatever its outcome. *)
Lemma SearchData_frame (w : World) :
  let w' := fst (SearchData w) in
  files w' = files w /\ exists lines, stdout w' = (stdout w ++ lines)%list.
Proof.
  unfold SearchData.
  destruct (Open (files w) "mnist_test.csv") as [err | file];
    [cbn; split; [| exists []; rewrite app_nil_r]; reflexivity |].
  destruct (Csv.ReadAll file) as [err | records];
    [cbn; split; [| exists []; rewrite app_nil_r]; reflexivity |].
  pose proof (SearchData_loop_frame records 0 0 0 w) as Hloop.
  destruct (SearchData_loop 0 records 0 0 w) as [w1 [[c wr] | err | p]];
    cbn [fst] in *; try exact Hloop.
  destruct Hloop as (Hf & l & Hout).
  destruct (accuracy c wr) as [acc |]; cbn [fst Println files stdout totalDuration].
  + destruct (averageDuration _ records) as [avg |];
      cbn [fst Println files stdout]; (split; [exact Hf |]);
      rewrite Hout, <- !app_assoc; eauto.
  + split; [exact Hf |]. rewrite Hout, <- !app_assoc; eauto.
Qed.

(** X13. Whatever their outcome, [StoreData] and [SearchData] never
    change the files and never remove or change what has been printed,
    they only append to it; [StoreData] also leaves the three duration
    variables as they are. *)
Theorem phases_leave_files_and_only_append_output (w : World) :
  (let w' := fst (StoreData w) in
   files w' = files w /\ minDuration w' = minDuration w /\
   maxDuration w' = maxDuration w /\ totalDuration w' = totalDuration w /\
   exists lines, stdout w' = (stdout w ++ lines)%list) /\
  (let w' := fst (SearchData w) in
   files w' = files w /\ exists lines, stdout w' = (stdout w ++ lines)%list).
Proof.
  split; [apply StoreData_frame | apply SearchData_frame].
Qed.

End FrameFacts.

(** ** [main] *)

Section MainFacts.

Context {Conn : Type} `{Backend Conn}.

Variable Error : error -> string.

(** X14. How [main] ends: the deferred [rdb.Close()] runs exactly when
    the program does not end by [os.Exit(1)]; the program ends with status
    0, with status 1 or by a panic; and it ends with status 0 only if
    [StoreData] returned [nil] in the state [CreateIndex] left and
    [SearchData] returned [nil] after it, started from a minimum of
    999999 and a maximum and a total of 0. *)
Theorem exit_status_and_deferred_close (w : World) :
  let r := main Error w in
  (closed r = true <-> ending r <> Exit 1) /\
  (ending r = Exit 0 \/ ending r = Exit 1 \/ exists p, ending r = Crash p) /\
  (ending r = Exit 0 ->
   exists conn err w1,
     CreateIndex (redis w) = (conn, err) /\
     StoreData (with_redis (main_init w) conn) = (w1, Returns tt) /\
     SearchData w1 = (final r, Returns tt) /\
     minDuration w1 = 999999 /\ maxDuration w1 = 0 /\ totalDuration w1 = 0).
Proof.
  unfold main. cbn [redis main_init with_durations].
  destruct (CreateIndex (redis w)) as [conn err] eqn:Hcreate.
  set (w0 := with_redis (main_init w) conn).
  assert (Hphases :
            forall record,
              let r := match StoreData w0 with
                       | (w1, Fails e) => fatal Error w1 [record] "Could not store data." e
                       | (w1, Panics p) => crash w1 [record] p
                       | (w1, Returns _) =>
                           match SearchData w1 with
                           | (w2, Fails e) =>
                               fatal Error w2 [record] "Could not search data." e
                           | (w2, Panics p) => crash w2 [record] p
                           | (w2, Returns _) =>
                               {| final := w2; logged := [record]; closed := true;
                                  ending := Exit 0 |}
                           end
                       end in
              (closed r = true <-> ending r <> Exit 1) /\
              (ending r = Exit 0 \/ ending r = Exit 1 \/ exists p, ending r = Crash p) /\
              (ending r = Exit 0 ->
               exists w1,
                 StoreData w0 = (w1, Returns tt) /\
                 SearchData w1 = (final r, Returns tt) /\
                 minDuration w1 = 999999 /\ maxDuration w1 = 0 /\ totalDuration w1 = 0)).
  { intros record.
    pose proof (StoreData_frame w0) as (_ & Hmn & Hmx & Htot & _).
    destruct (StoreData w0) as [w1 [[] | e | p]] eqn:Hstore; cbn [fst] in *.
    - destruct (SearchData w1) as [w2 [[] | e | p]] eqn:Hsearch; cbn.
      + split; [split; [discriminate | reflexivity] |]. split; [auto |].
        intros _. exists w1. auto 10.
      + split; [split; [discriminate | intros E; now contradiction E] |].
        split; [auto |]. discriminate.
      + split; [split; [discriminate | reflexivity] |]. split; [eauto |].
        discriminate.
    - cbn. split; [split; [discriminate | intros E; now contradiction E] |].
      split; [auto |]. discriminate.
    - cbn. split; [split; [discriminate | reflexivity] |]. split; [eauto |].
      discriminate. }
  assert (Hlift :
            forall r : Run,
              ((closed r = true <-> ending r <> Exit 1) /\
               (ending r = Exit 0 \/ ending r = Exit 1 \/ exists p, ending r = Crash p) /\
               (ending r = Exit 0 ->
                exists w1,
                  StoreData w0 = (w1, Returns tt) /\
                  SearchData w1 = (final r, Returns tt) /\
                  minDuration w1 = 999999 /\ maxDuration w1 = 0 /\ totalDuration w1 = 0)) ->
              (closed r = true <-> ending r <> Exit 1) /\
              (ending r = Exit 0 \/ ending r = Exit 1 \/ exists p, ending r = Crash p) /\
              (ending r = Exit 0 ->
               exists conn' err' w1,
                 (conn, err) = (conn', err') /\
                 StoreData (with_redis (main_init w) conn') = (w1, Returns tt) /\
                 SearchData w1 = (final r, Returns tt) /\
                 minDuration w1 = 999999 /\ maxDuration w1 = 0 /\ totalDuration w1 = 0)).
  { intros r (Hc & He & H0). split; [exact Hc |]. split; [exact He |].
    intros E. destruct (H0 E) as (w1 & ? & ? & ? & ? & ?).
    exists conn, err, w1. auto 10. }
  destruct err as [e |].
  - destruct (Contains (Error e) "Index already exists").
    + apply Hlift, Hphases.
    + cbn. split; [split; [discriminate | intros E; now contradiction E] |].
      split; [auto |]. discriminate.
  - apply Hlift, Hphases.
Qed.

(** X15. The outcome of [CreateIndex] decides whether anything is done:
    an error whose text does not contain [Index already exists] ends the
    program with status 1 before any row is read; an error whose text
    contains it is tolerated, and the run then ends as the run in which
    the index was created does, in the same final state, with only the
    first log record different (a warning instead of [Index Created.]). *)
Theorem index_creation_gate (w : World) (conn : Conn) (err : error) :
  CreateIndex (redis w) = (conn, Some err) ->
  (Contains (Error err) "Index already exists" = false ->
   main Error w
   = fatal Error (with_redis (main_init w) conn) []
       "Could not create search index." err) /\
  (Contains (Error err) "Index already exists" = true ->
   forall w2 : World,
     CreateIndex (redis w2) = (conn, None) ->
     files w2 = files w -> stdout w2 = stdout w ->
     final (main Error w) = final (main Error w2) /\
     closed (main Error w) = closed (main Error w2) /\
     ending (main Error w) = ending (main Error w2) /\
     exists rest,
       logged (main Error w)
       = {| level := LevelWarn; message := "Index already exists."; attrs := [] |}
           :: rest /\
       logged (main Error w2)
       = {| level := LevelInfo; message := "Index Created."; attrs := [] |}
           :: rest).
Proof.
  intros Hcreate. split.
  - intros Hno. unfold main.
    change (redis (main_init w)) with (redis w).
    rewrite Hcreate, Hno. reflexivity.
  - intros Hyes w2 Hcreate2 Hfiles Hout. unfold main.
    change (redis (main_init w)) with (redis w).
    change (redis (main_init w2)) with (redis w2).
    rewrite Hcreate, Hcreate2, Hyes.
    assert (Hw : with_redis (main_init w2) conn = with_redis (main_init w) conn).
    { unfold with_redis, main_init, with_durations. cbn. now rewrite Hfiles, Hout. }
    rewrite Hw.
    destruct (StoreData _) as [w1 [[] | e | p]]; cbn.
    + destruct (SearchData w1) as [w3 [[] | e | p]]; cbn; repeat split; eauto.
    + repeat split; eauto.
    + repeat split; eauto.
Qed.

(** X16. With an empty test file the program crashes after the
    ingestion: when the index has been created and [StoreData] has
    returned [nil], [main] ends by the panic of the division by zero,
    the deferred [rdb.Close()] runs, the store is as [StoreData] left it,
    and the two counts of zero are the last lines printed. *)
Theorem empty_test_file_crashes_the_program
  (w w1 : World) (conn : Conn) :
  CreateIndex (redis w) = (conn, None) ->
  StoreData (with_redis (main_init w) conn) = (w1, Returns tt) ->
  Open (files w) "mnist_test.csv" = inr [] ->
  let r := main Error w in
  ending r = Crash DivideByZero /\
  closed r = true /\
  redis (final r) = redis w1 /\
  stdout (final r)
  = (stdout w1 ++ ["Number of Correct guess = 0"; "Number of Wrong guess = 0"])%list.
Proof.
  intros Hcreate Hstore Hopen. unfold main.
  change (redis (main_init w)) with (redis w).
  rewrite Hcreate, Hstore.
  pose proof (StoreData_frame (with_redis (main_init w) conn)) as (Hf & _).
  rewrite Hstore in Hf. cbn in Hf.
  unfold SearchData. rewrite Hf, Hopen.
  cbn [Csv.ReadAll Csv.check_fields SearchData_loop].
  replace (accuracy 0 0) with (@None Z) by reflexivity.
  replace (Strconv.Itoa 0) with "0" by reflexivity.
  cbn. rewrite <- app_assoc. auto.
Qed.

End MainFacts.

(** ** The index and the documents *)

Section IndexFacts.

Lemma prefix_append (a b : string) : String.prefix a (a ++ b) = true.
Proof.
  induction a as [| c a IH]; [now destruct b |].
  rewrite append_cons. cbn [String.prefix].
  destruct (ascii_dec c c); [exact IH | contradiction].
Qed.

Lemma StoreData_row_new_keys (i : Z) (record : list string) (w : KVWorld) (k : string) :
  redis w !! k = None ->
  is_Some (redis (fst (StoreData_row i record w)) !! k) ->
  String.prefix "number:" k = true.
Proof.
  unfold StoreData_row.
  destruct record as [| label pixelValues]; [cbn; intros -> [? [=]] |].
  destruct (Strconv.Atoi label) as [err | result]; [cbn; intros -> [? [=]] |].
  destruct (pixelStrings_loop pixelValues []) as [err | ps]; [cbn; intros -> [? [=]] |].
  cbn. intros Hnone [doc Hdoc].
  destruct (decide (key i result = k)) as [<- | Hne].
  - unfold key. apply prefix_append.
  - rewrite lookup_insert_ne in Hdoc by exact Hne. congruence.
Qed.

Lemma StoreData_loop_new_keys (records : list (list string)) :
  forall i (w : KVWorld) (k : string),
    redis w !! k = None ->
    is_Some (redis (fst (StoreData_loop i records w)) !! k) ->
    String.prefix "number:" k = true.
Proof.
  induction records as [| record rest IH]; intros i w k Hnone Hsome.
  - cbn in Hsome. rewrite Hnone in Hsome. now destruct Hsome.
  - cbn [StoreData_loop] in Hsome.
    pose proof (StoreData_row_new_keys i record w k Hnone) as Hrow.
    destruct (StoreData_row i record w) as [w1 [[] | err | p]]; cbn [fst] in *;
      try (now apply Hrow).
    destruct (redis w1 !! k) as [doc |] eqn:Hk; [apply Hrow; eauto |].
    now apply (IH (i + 1) w1 k).
Qed.

(** X17. Every document [StoreData] adds to a key-value store, also in
    a run that fails, is stored under a key that starts with the prefix
    [CreateIndex] declares for the index ([number:]), so the index covers
    it. *)
Theorem new_documents_fall_under_the_index (w : KVWorld) (k : string) :
  redis w !! k = None ->
  is_Some (redis (fst (StoreData w)) !! k) ->
  exists prefix,
    nth_error createIndex 6 = Some (AStr prefix) /\
    String.prefix prefix k = true.
Proof.
  intros Hnone Hsome. exists "number:". split; [reflexivity |].
  revert Hsome. unfold StoreData.
  destruct (Open (files w) "mnist_train.csv") as [err | file];
    [cbn; rewrite Hnone; now intros [? [=]] |].
  destruct (Csv.ReadAll file) as [err | records];
    [cbn; rewrite Hnone; now intros [? [=]] |].
  pose proof (StoreData_loop_new_keys records 0 w k Hnone) as Hloop.
  destruct (StoreData_loop 0 records w) as [w1 [[] | err | p]]; cbn [fst] in *;
    exact Hloop.
Qed.

End IndexFacts.

(** ** The search command and its reply *)

Section QueryFacts.

Context {Conn : Type} `{Backend Conn}.

Lemma embedding_loop_length (pixelValues : list string) :
  forall acc embedding,
    embedding_loop pixelValues acc = inr embedding ->
    List.length embedding = (List.length acc + List.length pixelValues)%nat.
Proof.
  induction pixelValues as [| pixel rest IH]; intros acc embedding;
    cbn [embedding_loop].
  - intros [= <-]. cbn. lia.
  - destruct (Strconv.Atoi pixel) as [err | n]; [discriminate |].
    intros E. rewrite (IH _ _ E), length_app. cbn. lia.
Qed.

Lemma le_bytes_length (x : F32.t) : List.length (F32.le_bytes x) = 4%nat.
Proof. reflexivity. Qed.

Lemma blob_length (vector : list F32.t) :
  List.length (concat (map F32.le_bytes vector)) = (4 * List.length vector)%nat.
Proof.
  induction vector as [| v vector IH]; [reflexivity |].
  cbn [map concat]. rewrite length_app, le_bytes_length, IH. cbn [List.length]. lia.
Qed.

(** X18. The query of a test row has one [float32] per pixel field and
    its blob four bytes per pixel field; building the blob never fails,
    and [searchVectorInRedis] sends the one [FT.SEARCH] command with that
    blob and nothing else, however the reply is decoded. *)
Theorem search_sends_four_bytes_per_pixel
  (pixelValues : list string) (embedding : list F32.t) :
  embedding_loop pixelValues [] = inr embedding ->
  List.length embedding = List.length pixelValues /\
  exists blob,
    convertFloat32ArrayToBlob embedding = inr blob /\
    List.length blob = (4 * List.length pixelValues)%nat /\
    forall rdb : Conn,
      fst (searchVectorInRedis rdb embedding) = fst (Do rdb (searchQuery blob)).
Proof.
  intros Hloop. pose proof (embedding_loop_length _ _ _ Hloop) as Hlen.
  cbn [List.length Nat.add] in Hlen. split; [exact Hlen |].
  exists (concat (map F32.le_bytes embedding)).
  assert (Hblob : convertFloat32ArrayToBlob embedding
                  = inr (concat (map F32.le_bytes embedding))).
  { unfold convertFloat32ArrayToBlob.
    now rewrite convertFloat32ArrayToBlob_loop_append. }
  split; [exact Hblob |]. split; [now rewrite blob_length, Hlen |].
  intros rdb. unfold searchVectorInRedis. rewrite Hblob.
  destruct (Do rdb _) as [rdb' resp]. cbn [fst].
  destruct (reply resp) as [err | [| n | s | items]]; try reflexivity.
  destruct (Nat.eqb (List.length items) 0); [reflexivity |].
  destruct (items !! 1%nat) as [[| n | id | more] |]; try reflexivity.
  destruct (last (Strings.Split id ":")) as [lastPart |]; [| reflexivity].
  now destruct (Strconv.Atoi lastPart).
Qed.

(** The last piece of a split is free of the separator and ends the
    string, after a separator unless it is the whole string. *)
Lemma last_Split_tail (s : string) (sep : ascii) :
  exists tail,
    last (Strings.Split s sep) = Some tail /\
    occurs sep tail = false /\
    (s = tail \/ exists head, s = (head ++ String sep tail)%string).
Proof.
  induction s as [| c s (tail & Hlast & Hfree & Hshape)].
  - exists "". cbn. auto.
  - cbn [Strings.Split]. destruct (Ascii.eqb c sep) eqn:Hc.
    + apply Ascii.eqb_eq in Hc. subst c. exists tail. split; [| split].
      * destruct (Strings.Split s sep) as [| p ps] eqn:Hs;
          [now destruct (Split_nonempty s sep) |].
        rewrite <- Hlast. reflexivity.
      * exact Hfree.
      * right. destruct Hshape as [-> | [head ->]].
        -- exists "". reflexivity.
        -- exists (String sep head). now rewrite append_cons.
    + destruct (Strings.Split s sep) as [| p ps] eqn:Hs;
        [now destruct (Split_nonempty s sep) |].
      destruct ps as [| q qs].
      * cbn in Hlast. injection Hlast as ->.
        destruct Hshape as [-> | [head ->]].
        -- exists (String c tail). cbn. rewrite Hc, Hfree. auto.
        -- exfalso. rewrite Split_app_sep in Hs.
           rewrite (Split_no_sep tail sep Hfree) in Hs.
           destruct (Strings.Split head sep) as [| x xs] eqn:Hh;
             [now destruct (Split_nonempty head sep) |].
           cbn in Hs. destruct xs; cbn in Hs; discriminate.
      * exists tail. split; [exact Hlast |]. split; [exact Hfree |].
        right. destruct Hshape as [-> | [head ->]].
        -- exfalso. rewrite (Split_no_sep tail sep Hfree) in Hs. discriminate.
        -- exists (String c head). now rewrite append_cons.
Qed.

(** X19. [searchVectorInRedis] reads the label from what follows the
    last colon of the document key, or from the whole key when it has no
    colon: the index expression [parts[len(parts)-1]] never panics, the
    result is the [Atoi] of that text with the duration of the call, and
    an [Atoi] error is returned as it is. *)
Theorem search_reads_what_follows_the_last_colon
  (rdb rdb' : Conn) (embedding : list F32.t) (blob : list Byte.byte)
  (resp : Response) (total : Reply) (id : string) (fields : list Reply) :
  convertFloat32ArrayToBlob embedding = inr blob ->
  Do rdb (searchQuery blob) = (rdb', resp) ->
  reply resp = inr (RArr (total :: RStr id :: fields)) ->
  exists tail,
    occurs ":" tail = false /\
    (id = tail \/ exists head, id = (head ++ ":" ++ tail)%string) /\
    searchVectorInRedis rdb embedding
    = (rdb', match Strconv.Atoi tail with
             | inl err => Fails err
             | inr parsedInt => Returns (parsedInt, Milliseconds (elapsed_ns resp))
             end).
Proof.
  intros Hblob Hdo Hreply.
  destruct (last_Split_tail id ":") as (tail & Hlast & Hfree & Hshape).
  exists tail. split; [exact Hfree |]. split; [exact Hshape |].
  unfold searchVectorInRedis. rewrite Hblob, Hdo, Hreply.
  cbn [List.length Nat.eqb lookup list_lookup].
  rewrite Hlast. now destruct (Strconv.Atoi tail).
Qed.

End QueryFacts.

(** ** Files that cannot be read *)

Section FileFacts.

Context {Conn : Type} `{Backend Conn}.



End FileFacts.

(** ** The further theorems on sample runs *)

(** X1 on the normalised values of the intensities 0, 1 and 255. *)
Lemma blob_round_trip_witness :
  exists blob,
    convertFloat32ArrayToBlob [pixelFloat 0; pixelFloat 1; pixelFloat 255] = inr blob /\
    blobToFloat32Array blob = Some [pixelFloat 0; pixelFloat 1; pixelFloat 255].
Proof.
  apply blob_round_trip.
  repeat (apply List.Forall_cons; [vm_compute; reflexivity |]). apply List.Forall_nil.
Defined.

(** X3 on two rows, the second refused by the server. *)
Lemma backend_error_aborts_ingestion_witness :
  let w := world [replied_ok;
                  {| elapsed_ns := 0; reply := inl (BackendError "OOM") |}]
                 two_rows [] in
  snd (StoreData w) = Fails (BackendError "OOM") /\
  stdout (fst (StoreData w)) = ["Stored JSON for number:0:5"].
Proof.
  intros w.
  destruct (backend_error_aborts_ingestion w
              (fst (StoreData_loop 0 [["5"; "0"; "255"]] w))
              two_rows [["5"; "0"; "255"]] [] "3" ["1"; "2"] 3
              ["0.003922"; "0.007843"] []
              {| elapsed_ns := 0; reply := inl (BackendError "OOM") |}
              (BackendError "OOM"))
    as (Hrun & Hout).
  - reflexivity.
  - reflexivity.
  - vm_compute. reflexivity.
  - reflexivity.
  - vm_compute. reflexivity.
  - vm_compute. reflexivity.
  - reflexivity.
  - rewrite Hrun. split; [reflexivity |]. cbn [fst]. rewrite Hout.
    vm_compute. reflexivity.
Defined.

(** X4 on two rows over the key-value backend. *)
Lemma ingestion_prints_one_line_per_row_witness :
  let w : KVWorld := world empty two_rows [] in
  stdout (fst (StoreData w))
  = ["Stored JSON for number:0:5"; "Stored JSON for number:1:3";
     "All data has been stored in Redis."].
Proof.
  intros w.
  destruct (ingestion_prints_one_line_per_row w (fst (StoreData w)) two_rows two_rows)
    as (_ & Hout & _).
  - reflexivity.
  - reflexivity.
  - vm_compute. reflexivity.
  - rewrite Hout. vm_compute. reflexivity.
Defined.

(** X5 on a store that holds a document under another key. *)
Lemma ingestion_overlays_the_store_witness :
  let w : KVWorld := world (<["other" := "doc"]> empty) two_rows [] in
  redis (fst (StoreData w)) !! "other" = Some "doc".
Proof.
  intros w.
  destruct (ingestion_overlays_the_store w (fst (StoreData w)) two_rows two_rows)
    as (_ & _ & Hother).
  - reflexivity.
  - reflexivity.
  - vm_compute. reflexivity.
  - rewrite Hother; [reflexivity |].
    vm_compute. intros [E | [E | []]]; discriminate.
Defined.

(** X6 on two rows: the second run leaves the store of the first. *)
Lemma ingestion_is_idempotent_witness :
  let w : KVWorld := world empty two_rows [] in
  exists w2,
    StoreData (fst (StoreData w)) = (w2, Returns tt) /\
    redis w2 = redis (fst (StoreData w)).
Proof.
  intros w.
  apply (ingestion_is_idempotent w (fst (StoreData w)) two_rows two_rows).
  - reflexivity.
  - reflexivity.
  - vm_compute. reflexivity.
Defined.

(** X7 on the label [-3]. *)
Lemma accepted_label_round_trips_witness :
  searchVectorInRedis [found_in 29 12 (-3)] [pixelFloat 0; pixelFloat 255]
  = ([], Returns (-3, 29)).
Proof.
  destruct (convertFloat32ArrayToBlob [pixelFloat 0; pixelFloat 255])
    as [err | blob] eqn:Hblob; [vm_compute in Hblob; discriminate |].
  refine (proj2 (proj2
            (accepted_label_round_trips
               [found_in 29 12 (-3)] [] _ blob (found_in 29 12 (-3)) (RInt 1)
               [RArr [RStr "dist"; RStr "0"]] "-3" (-3) 12 _ Hblob _ _))).
  - reflexivity.
  - reflexivity.
  - reflexivity.
Defined.

(** X8 on three rows whose second has the pixel [x]. *)
Lemma evaluation_stops_at_first_incomplete_row_witness :
  let w := main_init (world [found_in 30 3 7] []
                        [["7"; "0"]; ["4"; "x"]; ["1"; "255"]]) in
  snd (SearchData w) = Fails (NumError "Atoi" "x" ErrSyntax) /\
  stdout (fst (SearchData w)) = ["Test image 0: expected = 7, found = 7 in 30ms"].
Proof.
  intros w.
  destruct (evaluation_stops_at_first_incomplete_row w
              (fst (SearchData_loop 0 [["7"; "0"]] 0 0 w))
              [["7"; "0"]; ["4"; "x"]; ["1"; "255"]]
              [["7"; "0"]] [["1"; "255"]] ["4"; "x"] 1 0)
    as (Hfail & _ & Hout).
  - reflexivity.
  - reflexivity.
  - vm_compute. reflexivity.
  - rewrite (Hfail (NumError "Atoi" "x" ErrSyntax) eq_refl).
    split; [reflexivity |]. cbn [fst]. rewrite Hout. vm_compute. reflexivity.
Defined.

(** X9 on ten queries of which nine are answered with the expected label. *)
Lemma accuracy_is_a_percentage_witness :
  let qs := queries ten_answers ten_rows in
  0 <= Z.quot (100 * correct_count qs) (correct_count qs + wrong_count qs) <= 100.
Proof.
  assert (Hne : ten_rows <> []) by discriminate.
  assert (Hbound : 100 * Z.of_nat (List.length ten_rows) <= GoInt.maxInt64)
    by (vm_compute; discriminate).
  assert (Hlen : List.length (queries ten_answers ten_rows) = List.length ten_rows)
    by (vm_compute; reflexivity).
  exact (proj1 (proj2 (accuracy_is_a_percentage
                         (main_init (world ten_answers [] ten_rows))
                         ten_rows ten_rows eq_refl eq_refl Hne Hbound Hlen))).
Defined.

(** X10 on two queries of 30 ms and 81 ms. *)
Lemma average_lies_between_minimum_and_maximum_witness :
  let w := world [found_in 30 3 7; found_in 81 9 2] [] [["7"; "0"]; ["1"; "255"]] in
  exists w' mn mx avg,
    SearchData (main_init w) = (w', Returns tt) /\ 0 <= mn <= avg /\ avg <= mx.
Proof.
  intros w.
  assert (Hne : [["7"; "0"]; ["1"; "255"]] <> ([] : list (list string)))
    by discriminate.
  assert (Hbound : Z.of_nat (List.length [["7"; "0"]; ["1"; "255"]]) <= GoInt.maxInt64)
    by (vm_compute; discriminate).
  assert (Hlen : List.length (queries (redis w) [["7"; "0"]; ["1"; "255"]])
                 = List.length [["7"; "0"]; ["1"; "255"]])
    by (vm_compute; reflexivity).
  assert (Hsum : total_latency (queries (redis w) [["7"; "0"]; ["1"; "255"]])
                 <= GoInt.maxInt64)
    by (vm_compute; discriminate).
  destruct (average_lies_between_minimum_and_maximum w
              [["7"; "0"]; ["1"; "255"]] [["7"; "0"]; ["1"; "255"]]
              eq_refl eq_refl Hne Hbound Hlen Hsum)
    as (w' & correct & wrong & acc & mn & mx & avg & Hret & _ & Hlow & Hhigh).
  exists w', mn, mx, avg. auto.
Defined.

(** X11 on two queries of 30 ms and 81 ms that start from a minimum of 10,
    a maximum of 50 and a total of 100. *)
Lemma evaluation_accumulates_into_the_variables_witness :
  let w := with_durations
             (world [found_in 30 3 7; found_in 81 9 2] []
                [["7"; "0"]; ["1"; "255"]]) 10 50 100 in
  minDuration (fst (SearchData w)) = 10 /\
  maxDuration (fst (SearchData w)) = 81 /\
  totalDuration (fst (SearchData w)) = 211.
Proof.
  intros w.
  assert (Hret : SearchData w = (fst (SearchData w), Returns tt))
    by (vm_compute; reflexivity).
  assert (Ht0 : 0 <= totalDuration w) by (vm_compute; discriminate).
  assert (Hsum : totalDuration w
                 + total_latency (queries (redis w) [["7"; "0"]; ["1"; "255"]])
                 <= GoInt.maxInt64)
    by (vm_compute; discriminate).
  destruct (evaluation_accumulates_into_the_variables w (fst (SearchData w))
              [["7"; "0"]; ["1"; "255"]] [["7"; "0"]; ["1"; "255"]]
              eq_refl eq_refl Hret Ht0 Hsum)
    as (Hmn & Hmx & Htot & _).
  rewrite Hmn, Hmx, Htot. repeat split; vm_compute; reflexivity.
Defined.


(** X15 on a server that cannot be reached, and on a server that has the
    index against one that has not. *)
Lemma index_creation_gate_witness :
  (let w := world [{| elapsed_ns := 0;
                      reply := inl (BackendError "connection refused") |}]
                  two_rows [] in
   ending (main sample_texts w) = Exit 1 /\
   stdout (final (main sample_texts w)) = []) /\
  (let w := world (server true [found_in 30 0 5]) two_rows [["5"; "0"; "255"]] in
   let w2 := world (server false [found_in 30 0 5]) two_rows [["5"; "0"; "255"]] in
   final (main sample_texts w) = final (main sample_texts w2) /\
   ending (main sample_texts w) = ending (main sample_texts w2)).
Proof.
  split.
  - intros w.
    destruct (index_creation_gate sample_texts w []
                (BackendError "connection refused")) as (Hfatal & _);
      [reflexivity |].
    rewrite Hfatal by reflexivity. split; reflexivity.
  - intros w w2.
    destruct (index_creation_gate sample_texts w (server true [found_in 30 0 5])
                (BackendError "Index already exists")) as (_ & Hsame);
      [reflexivity |].
    destruct (Hsame eq_refl w2) as (Hfinal & _ & Hending & _);
      [reflexivity | reflexivity | reflexivity |].
    split; assumption.
Defined.

(** X16 on a fresh server, two training rows and an empty test file. *)
Lemma empty_test_file_crashes_the_program_witness :
  let w := world (server false []) two_rows [] in
  ending (main sample_texts w) = Crash DivideByZero /\
  closed (main sample_texts w) = true.
Proof.
  intros w.
  destruct (empty_test_file_crashes_the_program sample_texts w
              (fst (StoreData (with_redis (main_init w) (server true []))))
              (server true []))
    as (Hending & Hclosed & _).
  - reflexivity.
  - vm_compute. reflexivity.
  - reflexivity.
  - split; assumption.
Defined.

(** X17 on the second of two rows. *)
Lemma new_documents_fall_under_the_index_witness :
  exists prefix,
    nth_error createIndex 6 = Some (AStr prefix) /\
    String.prefix prefix "number:1:3" = true.
Proof.
  apply (new_documents_fall_under_the_index (world empty two_rows []) "number:1:3").
  - reflexivity.
  - vm_compute. eexists. reflexivity.
Defined.

(** X18 on a row of two pixels. *)
Lemma search_sends_four_bytes_per_pixel_witness :
  exists blob,
    convertFloat32ArrayToBlob [pixelFloat 0; pixelFloat 255] = inr blob /\
    List.length blob = 8%nat.
Proof.
  destruct (search_sends_four_bytes_per_pixel (Conn := list Response)
              ["0"; "255"] [pixelFloat 0; pixelFloat 255])
    as (_ & blob & Hblob & Hlen & _).
  - reflexivity.
  - exists blob. split; [exact Hblob | exact Hlen].
Defined.

(** X19 on a document whose key is [doc:a:41]. *)
Lemma search_reads_what_follows_the_last_colon_witness :
  let resp := {| elapsed_ns := 30000000;
                 reply := inr (hit 1 "doc:a:41" []) |} in
  exists tail,
    occurs ":" tail = false /\
    searchVectorInRedis [resp] [pixelFloat 0]
    = ([], match Strconv.Atoi tail with
           | inl err => Fails err
           | inr parsedInt => Returns (parsedInt, 30)
           end).
Proof.
  intros resp.
  destruct (convertFloat32ArrayToBlob [pixelFloat 0])
    as [err | blob] eqn:Hblob; [vm_compute in Hblob; discriminate |].
  destruct (search_reads_what_follows_the_last_colon
              [resp] [] [pixelFloat 0] blob resp (RInt 1) "doc:a:41" [RArr []])
    as (tail & Hfree & _ & Hrun).
  - exact Hblob.
  - reflexivity.
  - reflexivity.
  - exists tail. split; [exact Hfree | exact Hrun].
Defined.


(** X14 on a fresh server, two training rows and one test row: the run
    does not end by [os.Exit(1)], so the connection is closed. *)
Lemma exit_status_and_deferred_close_witness :
  let w := world (server false [found_in 30 0 5]) two_rows [["5"; "0"; "255"]] in
  closed (main sample_texts w) = true.
Proof.
  intros w.
  apply (proj1 (exit_status_and_deferred_close sample_texts w)).
  vm_compute. discriminate.
Defined.
